(** * transcription-proxy: the WordPress proxy endpoints

    A shallow embedding of the WordPress endpoints of the proxy server
    (helper [getWpAuthHeader] and the handlers of
    [/api/wordpress/categories], [/api/wordpress/media] and
    [/api/wordpress/posts]) and the properties of them that the
    specification states.

    Conventions of the model.
    - A JavaScript string is a [string]: a sequence of 8-bit characters,
      its code units, all below 256.  [toLowerCase], the regular
      expressions, [substring] and [startsWith] work on these code
      units.  [Buffer.from] and [encodeURIComponent] work on the bytes of
      a string, which are its code units on ASCII text.
    - A parsed JSON document is a [JsValue]; numbers are the integral ones.
    - [await fetch(...)] is an event of the free monad [Prog]; the upstream
      servers are a [World] that answers each request from the history of
      the requests issued so far.
    - [console.log] and friends have no effect on requests or results and
      are left out, except where evaluating their arguments can throw. *)

From Stdlib Require Import String Ascii List ZArith Lia Bool Arith.
From Stdlib Require Import DecimalString Zify ZifyNat.
Import ListNotations.

#[local] Set Warnings "-register-all".

Local Open Scope string_scope.

(* ================================================================= *)
(** ** JavaScript values *)

Inductive JsValue : Type :=
| JUndefined
| JNull
| JBool (b : bool)
| JNum (z : Z)
| JStr (s : string)
| JArr (items : list JsValue)
| JObj (fields : list (string * JsValue)).

(** Truthiness, as tested by [if (v)], [!v] and [a || b]. *)
Definition js_truthy (v : JsValue) : bool :=
  match v with
  | JUndefined | JNull => false
  | JBool b => b
  | JNum z => negb (z =? 0)%Z
  | JStr s => negb (s =? "")
  | JArr _ | JObj _ => true
  end.

(** [a || b] *)
Definition js_or (a b : JsValue) : JsValue :=
  if js_truthy a then a else b.

(** A field of a request body that is a string when it is there;
    [None] is [undefined], the value of a missing field. *)
Definition JsStr := option string.

Definition str_truthy (v : JsStr) : bool :=
  match v with
  | Some s => negb (s =? "")
  | None => false
  end.

(** Decimal rendering of an integer, as a template literal does it. *)
Definition string_of_Z (z : Z) : string :=
  NilZero.string_of_int (Z.to_int z).

(** [`${v}`] for a string field. *)
Definition str_ToString (v : JsStr) : string :=
  match v with
  | Some s => s
  | None => "undefined"
  end.

(** [`${v}`] for a JSON value.  An array joins its elements with commas,
    [null] and [undefined] elements giving the empty string. *)
Fixpoint ToString (v : JsValue) : string :=
  match v with
  | JUndefined => "undefined"
  | JNull => "null"
  | JBool true => "true"
  | JBool false => "false"
  | JNum z => string_of_Z z
  | JStr s => s
  | JArr items =>
      String.concat ","
        (map (fun x => match x with
                       | JUndefined | JNull => ""
                       | _ => ToString x
                       end) items)
  | JObj _ => "[object Object]"
  end.

(** Errors thrown while a handler runs; only [error.message] is read. *)
Inductive JsError : Type :=
| FetchError (message : string)
| TypeError (message : string)
| SyntaxError (message : string).

Definition error_message (e : JsError) : string :=
  match e with
  | FetchError m => m
  | TypeError m => m
  | SyntaxError m => m
  end.

(** First binding of a key in an object. *)
Fixpoint lookup_field (key : string) (fields : list (string * JsValue))
  : option JsValue :=
  match fields with
  | [] => None
  | (k, v) :: rest => if k =? key then Some v else lookup_field key rest
  end.

(** [v.key] for the keys the handlers read from parsed JSON ([id], [name],
    [message], [source_url], [link]).  Reading a property of [null] or
    [undefined] throws.  On a string, number, boolean or array these keys
    are not own properties; the one inherited member among them, a
    string's [link] method, is a function, which [res.json] leaves out
    exactly as it leaves out [undefined]. *)
Definition get_prop (v : JsValue) (key : string) : JsError + JsValue :=
  match v with
  | JUndefined =>
      inl (TypeError ("Cannot read properties of undefined (reading '"
                        ++ key ++ "')"))
  | JNull =>
      inl (TypeError ("Cannot read properties of null (reading '"
                        ++ key ++ "')"))
  | JObj fields =>
      match lookup_field key fields with
      | Some x => inr x
      | None => inr JUndefined
      end
  | _ => inr JUndefined
  end.

(* ================================================================= *)
(** ** String primitives used by the handlers *)

Definition is_upper (c : ascii) : bool :=
  let n := nat_of_ascii c in ((65 <=? n) && (n <=? 90))%nat.
Definition is_lower (c : ascii) : bool :=
  let n := nat_of_ascii c in ((97 <=? n) && (n <=? 122))%nat.
Definition is_digit (c : ascii) : bool :=
  let n := nat_of_ascii c in ((48 <=? n) && (n <=? 57))%nat.

(** The character class [[a-zA-Z0-9]]. *)
Definition is_alnum (c : ascii) : bool :=
  is_lower c || is_upper c || is_digit c.

Fixpoint map_string (f : ascii -> ascii) (s : string) : string :=
  match s with
  | EmptyString => EmptyString
  | String c rest => String (f c) (map_string f rest)
  end.

(** The capital letters among the code units below 256: [A-Z], and the
    accented ones from U+00C0 to U+00DE but the multiplication sign
    U+00D7.  Each has its small letter 32 places further. *)
Definition is_capital (c : ascii) : bool :=
  let n := nat_of_ascii c in
  (is_upper c
   || ((192 <=? n) && (n <=? 214))
   || ((216 <=? n) && (n <=? 222)))%nat.

(** [s.toLowerCase()] *)
Definition lower_char (c : ascii) : ascii :=
  if is_capital c then ascii_of_nat (nat_of_ascii c + 32) else c.
Definition toLowerCase (s : string) : string := map_string lower_char s.

(** [s.replace(/\/$/, '')]: one trailing slash is removed. *)
Fixpoint replace_trailing_slash (s : string) : string :=
  match s with
  | EmptyString => EmptyString
  | String c rest =>
      match rest with
      | EmptyString => if (c =? "/")%char then EmptyString else s
      | String _ _ => String c (replace_trailing_slash rest)
      end
  end.

(** [s.replace(/[^a-zA-Z0-9]/g, '-')] *)
Definition replace_non_alnum (s : string) : string :=
  map_string (fun c => if is_alnum c then c else "-"%char) s.

(** [s.startsWith(p)] *)
Definition startsWith (s p : string) : bool := String.prefix p s.

(** [encodeURIComponent]: every character but the unreserved ones
    [A-Z a-z 0-9 - _ . ! ~ * ' ( )] becomes [%XX]. *)
Definition is_uri_unreserved (c : ascii) : bool :=
  is_alnum c ||
  existsb (fun d => (c =? d)%char)
    ["-"; "_"; "."; "!"; "~"; "*"; "'"; "("; ")"]%char.

Definition hex_digit (n : nat) : ascii :=
  if (n <? 10)%nat then ascii_of_nat (48 + n) else ascii_of_nat (55 + n).

Fixpoint encodeURIComponent (s : string) : string :=
  match s with
  | EmptyString => EmptyString
  | String c rest =>
      if is_uri_unreserved c
      then String c (encodeURIComponent rest)
      else String "%" (String (hex_digit (nat_of_ascii c / 16))
             (String (hex_digit (nat_of_ascii c mod 16))
                (encodeURIComponent rest)))
  end.

(* ================================================================= *)
(** ** Base64, as [Buffer.prototype.toString('base64')] produces it *)

Definition b64_alphabet : string :=
  "ABCDEFGHIJKLMNOPQRSTUVWXYZabcdefghijklmnopqrstuvwxyz0123456789+/".

Definition b64_char (n : nat) : ascii :=
  match String.get n b64_alphabet with
  | Some c => c
  | None => "="%char
  end.

Fixpoint base64_encode (s : string) : string :=
  match s with
  | EmptyString => EmptyString
  | String a EmptyString =>
      let x := nat_of_ascii a in
      String (b64_char (x / 4))
        (String (b64_char ((x mod 4) * 16)) "==")
  | String a (String b EmptyString) =>
      let x := nat_of_ascii a in
      let y := nat_of_ascii b in
      String (b64_char (x / 4))
        (String (b64_char ((x mod 4) * 16 + y / 16))
           (String (b64_char ((y mod 16) * 4)) "="))
  | String a (String b (String c rest)) =>
      let x := nat_of_ascii a in
      let y := nat_of_ascii b in
      let z := nat_of_ascii c in
      String (b64_char (x / 4))
        (String (b64_char ((x mod 4) * 16 + y / 16))
           (String (b64_char ((y mod 16) * 4 + z / 64))
              (String (b64_char (z mod 64)) (base64_encode rest))))
  end.

(** The inverse direction, [Buffer.from(s, 'base64')] on padded input. *)
Definition b64_index (c : ascii) : option nat :=
  let n := nat_of_ascii c in
  if is_upper c then Some (n - 65)
  else if is_lower c then Some (n - 71)
  else if is_digit c then Some (n + 4)
  else if (c =? "+")%char then Some 62
  else if (c =? "/")%char then Some 63
  else None.

Fixpoint base64_decode (s : string) : option string :=
  match s with
  | EmptyString => Some EmptyString
  | String c1 (String c2 (String c3 (String c4 rest))) =>
      match b64_index c1, b64_index c2 with
      | Some i1, Some i2 =>
          let a := ascii_of_nat (i1 * 4 + i2 / 16) in
          match b64_index c3, b64_index c4 with
          | Some i3, Some i4 =>
              let b := ascii_of_nat ((i2 mod 16) * 16 + i3 / 4) in
              let c := ascii_of_nat ((i3 mod 4) * 64 + i4) in
              match base64_decode rest with
              | Some r => Some (String a (String b (String c r)))
              | None => None
              end
          | Some i3, None =>
              if (c4 =? "=")%char && (rest =? "")
              then Some (String a
                           (String (ascii_of_nat ((i2 mod 16) * 16 + i3 / 4))
                              EmptyString))
              else None
          | None, _ =>
              if (c3 =? "=")%char && (c4 =? "=")%char && (rest =? "")
              then Some (String a EmptyString)
              else None
          end
      | _, _ => None
      end
  | _ => None
  end.

(* ================================================================= *)
(** ** The credential encoder *)

(** [getWpAuthHeader]: [`Basic ${Buffer.from(`${username}:${appPassword}`)
    .toString('base64')}`]. *)
Definition getWpAuthHeader (username appPassword : string) : string :=
  let credentials := base64_encode (username ++ ":" ++ appPassword) in
  "Basic " ++ credentials.

(* ================================================================= *)
(** ** Requests, responses and the upstream world *)

Inductive Method : Type := GET | POST.

(** The [redirect] option of [fetch]. *)
Inductive RedirectMode : Type := RedirectFollow | RedirectManual.

(** A response body, by what the handlers do with it: [JSON.parse] and
    [response.json()] either give a value, or throw; [json_error] is the
    message of the error [response.json()] rejects with. *)
Inductive Body : Type :=
| JsonBody (v : JsValue)
| RawBody (text : string) (json_error : string).

Record Response : Type := mkResponse {
  status : Z;
  location : option string;      (* [headers.get('location')] *)
  body : Body
}.

(** [response.ok] *)
Definition ok (r : Response) : bool :=
  ((200 <=? status r) && (status r <? 300))%Z.

(** One file part of a multipart form, [formData.append(name, value,
    {filename, contentType})]. *)
Record FilePart : Type := mkFilePart {
  part_name : string;
  part_value : Body;
  part_filename : string;
  part_contentType : string
}.

(** A [FormData] object: which instance it is, the boundary it drew, and
    the parts appended so far.  The stream of an instance is used up by
    the request that sends it. *)
Record FormData : Type := mkFormData {
  fd_instance : nat;
  fd_boundary : string;
  fd_parts : list FilePart
}.

Definition append (fd : FormData) (p : FilePart) : FormData :=
  {| fd_instance := fd_instance fd;
     fd_boundary := fd_boundary fd;
     fd_parts := fd_parts fd ++ [p] |}.

Definition getHeaders (fd : FormData) : list (string * string) :=
  [("content-type", "multipart/form-data; boundary=" ++ fd_boundary fd)].

(** A request body: none, [JSON.stringify(v)], or a form. *)
Inductive ReqBody : Type :=
| NoBody
| JsonText (v : JsValue)
| Multipart (fd : FormData).

(** One call of [fetch(url, options)].  [req_method] is [GET] when the
    options give none; [req_redirect] is [None] when the options give
    none, and the transport then follows redirects by itself. *)
Record Request : Type := mkRequest {
  req_url : string;
  req_method : Method;
  req_headers : list (string * string);
  req_body : ReqBody;
  req_redirect : option RedirectMode
}.

Fixpoint header (name : string) (hs : list (string * string))
  : option string :=
  match hs with
  | [] => None
  | (k, v) :: rest => if k =? name then Some v else header name rest
  end.

(** What awaiting a [fetch] gives: a response, or a rejection (DNS,
    connection refused, timeout, ...) with its message. *)
Inductive FetchOutcome : Type :=
| Resolved (r : Response)
| Rejected (message : string).

(** The upstream side: the outcome of each request, given the requests
    issued before it, and the boundary each new [FormData] draws. *)
Record World : Type := mkWorld {
  w_fetch : list Request -> Request -> FetchOutcome;
  w_boundary : nat -> string
}.

(* ================================================================= *)
(** ** Handler programs *)

Inductive Prog (A : Type) : Type :=
| Ret (a : A)
| Throw (e : JsError)
| Fetch (rq : Request) (k : FetchOutcome -> Prog A)
| NewFormData (k : FormData -> Prog A).

Arguments Ret {A} a.
Arguments Throw {A} e.
Arguments Fetch {A} rq k.
Arguments NewFormData {A} k.

Fixpoint bind {A B : Type} (p : Prog A) (f : A -> Prog B) : Prog B :=
  match p with
  | Ret a => f a
  | Throw e => Throw e
  | Fetch rq k => Fetch rq (fun o => bind (k o) f)
  | NewFormData k => NewFormData (fun fd => bind (k fd) f)
  end.

(** [try { p } catch (e) { h e }] *)
Fixpoint try_catch {A : Type} (p : Prog A) (h : JsError -> Prog A)
  : Prog A :=
  match p with
  | Ret a => Ret a
  | Throw e => h e
  | Fetch rq k => Fetch rq (fun o => try_catch (k o) h)
  | NewFormData k => NewFormData (fun fd => try_catch (k fd) h)
  end.

Declare Scope prog_scope.
Delimit Scope prog_scope with prog.
Notation "x <- p ;; q" := (bind p (fun x => q))
  (at level 61, p at next level, right associativity) : prog_scope.
Notation "p ;;; q" := (bind p (fun _ => q))
  (at level 61, right associativity) : prog_scope.
Local Open Scope prog_scope.

(** Synchronous code that may throw. *)
Definition Result (A : Type) : Type := (JsError + A)%type.

Definition bindR {A B : Type} (r : Result A) (f : A -> Result B)
  : Result B :=
  match r with
  | inl e => inl e
  | inr a => f a
  end.

Definition liftR {A : Type} (r : Result A) : Prog A :=
  match r with
  | inl e => Throw e
  | inr a => Ret a
  end.

(** [await fetch(url, options)] *)
Definition await_fetch (rq : Request) : Prog Response :=
  Fetch rq (fun o =>
    match o with
    | Resolved r => Ret r
    | Rejected m => Throw (FetchError m)
    end).

(** [await response.json()] *)
Definition json (r : Response) : Prog JsValue :=
  match body r with
  | JsonBody v => Ret v
  | RawBody _ reason => Throw (FetchError reason)
  end.

(** [JSON.parse(await response.text())] *)
Definition JSON_parse (b : Body) : Result JsValue :=
  match b with
  | JsonBody v => inr v
  | RawBody _ _ => inl (SyntaxError "Unexpected token in JSON")
  end.

(** [new FormData()] *)
Definition new_FormData : Prog FormData := NewFormData (fun fd => Ret fd).

(** Running a program against a world: the requests it issues, in order,
    and how it ends. *)
Fixpoint run {A : Type} (w : World) (hist : list Request) (nfd : nat)
  (p : Prog A) : list Request * Result A :=
  match p with
  | Ret a => ([], inr a)
  | Throw e => ([], inl e)
  | Fetch rq k =>
      let (t, r) := run w (hist ++ [rq]) nfd (k (w_fetch w hist rq)) in
      (rq :: t, r)
  | NewFormData k =>
      run w hist (S nfd)
        (k {| fd_instance := nfd;
              fd_boundary := w_boundary w nfd;
              fd_parts := [] |})
  end.

(** What the caller of the proxy gets: [res.status(s).json(b)].  Fields
    of [b] that are [undefined] do not reach the wire. *)
Record HttpResult : Type := mkResult {
  res_status : Z;
  res_body : JsValue
}.

(** One request to the proxy, served from scratch. *)
Definition serve (w : World) (handler : Prog HttpResult)
  : list Request * Result HttpResult :=
  run w [] 0 handler.

Definition res_json (b : JsValue) : Prog HttpResult :=
  Ret {| res_status := 200; res_body := b |}.

Definition res_status_json (s : Z) (b : JsValue) : Prog HttpResult :=
  Ret {| res_status := s; res_body := b |}.

(** The [catch (error)] that closes every handler. *)
Definition catch_500 (e : JsError) : Prog HttpResult :=
  res_status_json 500 (JObj [("error", JStr (error_message e))]).

(** Methods called on values that may not have them. *)
Definition no_property (of_what key : string) : JsError :=
  TypeError ("Cannot read properties of " ++ of_what
               ++ " (reading '" ++ key ++ "')").

Definition str_replace_trailing_slash (v : JsStr) : Result string :=
  match v with
  | Some s => inr (replace_trailing_slash s)
  | None => inl (no_property "undefined" "replace")
  end.

Definition str_startsWith (v : JsStr) (p : string) : Result bool :=
  match v with
  | Some s => inr (startsWith s p)
  | None => inl (no_property "undefined" "startsWith")
  end.

Definition str_toLowerCase (v : JsStr) : Result string :=
  match v with
  | Some s => inr (toLowerCase s)
  | None => inl (no_property "undefined" "toLowerCase")
  end.

Definition js_toLowerCase (v : JsValue) : Result string :=
  match v with
  | JStr s => inr (toLowerCase s)
  | JUndefined => inl (no_property "undefined" "toLowerCase")
  | JNull => inl (no_property "null" "toLowerCase")
  | _ => inl (TypeError "cat.name.toLowerCase is not a function")
  end.

(** A string field as a JSON value. *)
Definition js_of_str (v : JsStr) : JsValue :=
  match v with
  | Some s => JStr s
  | None => JUndefined
  end.

(** [items.find(pred)] *)
Fixpoint find_first (pred : JsValue -> Result bool) (items : list JsValue)
  : Result JsValue :=
  match items with
  | [] => inr JUndefined
  | x :: rest =>
      match pred x with
      | inl e => inl e
      | inr true => inr x
      | inr false => find_first pred rest
      end
  end.

Definition Array_find (arr : JsValue) (pred : JsValue -> Result bool)
  : Result JsValue :=
  match arr with
  | JArr items => find_first pred items
  | JUndefined => inl (no_property "undefined" "find")
  | JNull => inl (no_property "null" "find")
  | _ => inl (TypeError "categories.find is not a function")
  end.

(** The statuses the handlers treat as a redirect. *)
Definition is_redirect_status (s : Z) : bool :=
  ((s =? 301) || (s =? 302) || (s =? 307) || (s =? 308))%Z.

(* ================================================================= *)
(** ** [POST /api/wordpress/categories] *)

Module Categories.

(** [req.body], as the handler destructures it. *)
Record Req : Type := mkReq {
  siteUrl : JsStr;
  username : JsStr;
  appPassword : JsStr;
  categoryName : JsStr
}.

Definition search_request (baseUrl authHeader : string)
  (categoryName : JsStr) : Request :=
  {| req_url := baseUrl ++ "/wp-json/wp/v2/categories?search="
                  ++ encodeURIComponent (str_ToString categoryName);
     req_method := GET;
     req_headers := [("Authorization", authHeader)];
     req_body := NoBody;
     req_redirect := None |}.

Definition create_request (baseUrl authHeader : string)
  (categoryName : JsStr) : Request :=
  {| req_url := baseUrl ++ "/wp-json/wp/v2/categories";
     req_method := POST;
     req_headers := [("Authorization", authHeader);
                     ("Content-Type", "application/json")];
     req_body := JsonText (JObj [("name", js_of_str categoryName)]);
     req_redirect := None |}.

(** [cat => cat.name.toLowerCase() === categoryName.toLowerCase()] *)
Definition name_matches (categoryName : JsStr) (cat : JsValue)
  : Result bool :=
  bindR (get_prop cat "name") (fun name =>
  bindR (js_toLowerCase name) (fun l =>
  bindR (str_toLowerCase categoryName) (fun r =>
  inr (l =? r)))).

(** The creation step, from [// Category doesn't exist, create it] on. *)
Definition create_category (baseUrl authHeader : string)
  (categoryName : JsStr) : Prog HttpResult :=
  createResponse <-
    await_fetch (create_request baseUrl authHeader categoryName);;
  if negb (ok createResponse) then
    errorData <- json createResponse;;
    message <- liftR (get_prop errorData "message");;
    res_status_json (status createResponse)
      (JObj [("error",
              js_or message (JStr "Failed to create category"))])
  else
    newCategory <- json createResponse;;
    id <- liftR (get_prop newCategory "id");;
    name <- liftR (get_prop newCategory "name");;
    res_json (JObj [("id", id); ("name", name)]).

Definition handler (req : Req) : Prog HttpResult :=
  try_catch
    (let siteUrl := siteUrl req in
     let username := username req in
     let appPassword := appPassword req in
     let categoryName := categoryName req in
     if negb (str_truthy siteUrl) || negb (str_truthy username)
        || negb (str_truthy appPassword)
     then
       res_status_json 400
         (JObj [("error", JStr "Missing WordPress credentials")])
     else
       baseUrl <- liftR (str_replace_trailing_slash siteUrl);;
       let authHeader :=
         getWpAuthHeader (str_ToString username)
           (str_ToString appPassword) in
       (* First, try to find existing category *)
       searchResponse <-
         await_fetch (search_request baseUrl authHeader categoryName);;
       found <-
         (if ok searchResponse then
            categories <- json searchResponse;;
            existingCategory <-
              liftR (Array_find categories (name_matches categoryName));;
            if js_truthy existingCategory then
              id <- liftR (get_prop existingCategory "id");;
              name <- liftR (get_prop existingCategory "name");;
              Ret (Some (JObj [("id", id); ("name", name)]))
            else Ret None
          else Ret None);;
       match found with
       | Some existing => res_json existing
       | None => create_category baseUrl authHeader categoryName
       end)
    catch_500.

End Categories.

(* ================================================================= *)
(** ** [POST /api/wordpress/media] *)

(** [(title || 'featured-image').replace(/[^a-zA-Z0-9]/g, '-')
      .substring(0, 50)] *)
Definition safeTitle (title : JsStr) : string :=
  substring 0 50
    (replace_non_alnum
       (if str_truthy title then str_ToString title else "featured-image")).

(** [`${safeTitle}-featured.jpg`] *)
Definition filename (title : JsStr) : string :=
  safeTitle title ++ "-featured.jpg".

Module Media.

Record Req : Type := mkReq {
  siteUrl : JsStr;
  username : JsStr;
  appPassword : JsStr;
  imageUrl : JsStr;
  title : JsStr
}.

Definition image_request (imageUrl : JsStr) : Request :=
  {| req_url := str_ToString imageUrl;
     req_method := GET;
     req_headers := [];
     req_body := NoBody;
     req_redirect := Some RedirectFollow |}.

(** [createFormData]: a new form holding the image as a file. *)
Definition createFormData (imageBuffer : Body) (filename : string)
  : Prog FormData :=
  formData <- new_FormData;;
  Ret (append formData
         {| part_name := "file";
            part_value := imageBuffer;
            part_filename := filename;
            part_contentType := "image/jpeg" |}).

Definition upload_request (wpMediaUrl authHeader : string)
  (formData : FormData) : Request :=
  {| req_url := wpMediaUrl;
     req_method := POST;
     req_headers := ("Authorization", authHeader) :: getHeaders formData;
     req_body := Multipart formData;
     req_redirect := Some RedirectManual |}.

Definition redirected_request (redirectUrl authHeader : string)
  (formData : FormData) : Request :=
  {| req_url := redirectUrl;
     req_method := POST;
     req_headers := ("Authorization", authHeader) :: getHeaders formData;
     req_body := Multipart formData;
     req_redirect := None |}.

Definition alt_text_request (baseUrl authHeader : string)
  (id : JsValue) (title : JsStr) : Request :=
  {| req_url := baseUrl ++ "/wp-json/wp/v2/media/" ++ ToString id;
     req_method := POST;
     req_headers := [("Authorization", authHeader);
                     ("Content-Type", "application/json")];
     req_body := JsonText (JObj [("alt_text", js_of_str title);
                                 ("title", js_of_str title)]);
     req_redirect := None |}.

(** [if (!uploadResponse.ok) { ... }] *)
Definition upload_failed (uploadResponse : Response) : Prog HttpResult :=
  let errorText := body uploadResponse in
  try_catch
    (errorData <- liftR (JSON_parse errorText);;
     message <- liftR (get_prop errorData "message");;
     res_status_json (status uploadResponse)
       (JObj [("error", js_or message (JStr "Failed to upload media"))]))
    (fun _ =>
       res_status_json (status uploadResponse)
         (JObj [("error",
                 JStr ("Failed to upload media: "
                         ++ string_of_Z (status uploadResponse)))])).

(** From [const mediaItem = await uploadResponse.json()] on. *)
Definition upload_succeeded (baseUrl authHeader : string) (title : JsStr)
  (uploadResponse : Response) : Prog HttpResult :=
  mediaItem <- json uploadResponse;;
  (* console.log('Media uploaded successfully, ID:', mediaItem.id) *)
  liftR (get_prop mediaItem "id");;;
  (* Update alt text if title provided *)
  wanted <-
    (if str_truthy title then
       id <- liftR (get_prop mediaItem "id");;
       Ret (js_truthy id)
     else Ret false);;
  (if wanted : bool then
     try_catch
       (id <- liftR (get_prop mediaItem "id");;
        await_fetch (alt_text_request baseUrl authHeader id title);;;
        Ret tt)
       (fun altError => Ret tt)
   else Ret tt);;;
  id <- liftR (get_prop mediaItem "id");;
  source_url <- liftR (get_prop mediaItem "source_url");;
  res_json (JObj [("id", id); ("url", source_url)]).

Definition handler (req : Req) : Prog HttpResult :=
  try_catch
    (let siteUrl := siteUrl req in
     let username := username req in
     let appPassword := appPassword req in
     let imageUrl := imageUrl req in
     let title := title req in
     if negb (str_truthy siteUrl) || negb (str_truthy username)
        || negb (str_truthy appPassword) || negb (str_truthy imageUrl)
     then
       res_status_json 400
         (JObj [("error",
                 JStr ("Missing required fields. imageUrl: "
                         ++ (if str_truthy imageUrl
                             then str_ToString imageUrl
                             else "MISSING")))])
     else
       (* Validate URL format *)
       http <- liftR (str_startsWith imageUrl "http://");;
       https <- (if negb http
                 then liftR (str_startsWith imageUrl "https://")
                 else Ret true);;
       if negb http && negb https then
         res_status_json 400
           (JObj [("error",
                   JStr ("Invalid image URL format: "
                           ++ str_ToString imageUrl))])
       else
         baseUrl <- liftR (str_replace_trailing_slash siteUrl);;
         let authHeader :=
           getWpAuthHeader (str_ToString username)
             (str_ToString appPassword) in
         (* Fetch the image from the source URL *)
         imageResponse <- await_fetch (image_request imageUrl);;
         if negb (ok imageResponse) then
           res_status_json 400
             (JObj [("error",
                     JStr ("Failed to fetch image from URL: "
                             ++ string_of_Z (status imageResponse)))])
         else
           let imageBuffer := body imageResponse in
           (* Create a safe filename *)
           let filename := filename title in
           (* Try uploading to WordPress *)
           let wpMediaUrl := baseUrl ++ "/wp-json/wp/v2/media" in
           formData <- createFormData imageBuffer filename;;
           uploadResponse <-
             await_fetch (upload_request wpMediaUrl authHeader formData);;
           (* Handle redirects manually to preserve auth header *)
           uploadResponse <-
             (if is_redirect_status (status uploadResponse) then
                let redirectUrl := location uploadResponse in
                if str_truthy redirectUrl then
                  (* Create fresh FormData for the redirect request *)
                  formData <- createFormData imageBuffer filename;;
                  await_fetch
                    (redirected_request (str_ToString redirectUrl)
                       authHeader formData)
                else Ret uploadResponse
              else Ret uploadResponse);;
           if negb (ok uploadResponse)
           then upload_failed uploadResponse
           else upload_succeeded baseUrl authHeader title uploadResponse)
    catch_500.

End Media.

(* ================================================================= *)
(** ** [POST /api/wordpress/posts] *)

Module Posts.

Record Req : Type := mkReq {
  siteUrl : JsStr;
  username : JsStr;
  appPassword : JsStr;
  title : JsValue;
  content : JsStr;
  featuredImageId : JsValue;
  categoryId : JsValue
}.

(** The object [postData], after the two conditional assignments. *)
Definition postData (title : JsValue) (content : JsStr)
  (featuredImageId categoryId : JsValue) : JsValue :=
  JObj ([("title", title);
         ("content", js_of_str content);
         ("status", JStr "draft")]
        ++ (if js_truthy featuredImageId
            then [("featured_media", featuredImageId)] else [])
        ++ (if js_truthy categoryId
            then [("categories", JArr [categoryId])] else [])).

Definition post_request (baseUrl authHeader : string)
  (postData : JsValue) : Request :=
  {| req_url := baseUrl ++ "/wp-json/wp/v2/posts";
     req_method := POST;
     req_headers := [("Authorization", authHeader);
                     ("Content-Type", "application/json")];
     req_body := JsonText postData;
     req_redirect := Some RedirectManual |}.

Definition redirected_request (redirectUrl authHeader : string)
  (postData : JsValue) : Request :=
  {| req_url := redirectUrl;
     req_method := POST;
     req_headers := [("Authorization", authHeader);
                     ("Content-Type", "application/json")];
     req_body := JsonText postData;
     req_redirect := None |}.

(** [if (!response.ok) { ... }] *)
Definition post_failed (response : Response) : Prog HttpResult :=
  let errorText := body response in
  try_catch
    (errorData <- liftR (JSON_parse errorText);;
     message <- liftR (get_prop errorData "message");;
     res_status_json (status response)
       (JObj [("error", js_or message (JStr "Failed to create post"))]))
    (fun _ =>
       res_status_json (status response)
         (JObj [("error",
                 JStr ("Failed to create post: "
                         ++ string_of_Z (status response)))])).

(** From [const post = await response.json()] on. *)
Definition post_succeeded (baseUrl : string) (response : Response)
  : Prog HttpResult :=
  post <- json response;;
  id <- liftR (get_prop post "id");;
  link <- liftR (get_prop post "link");;
  res_json
    (JObj [("id", id);
           ("link", link);
           ("adminLink",
            JStr (baseUrl ++ "/wp-admin/post.php?post=" ++ ToString id
                    ++ "&action=edit"))]).

(** [title?.substring(0, 50)], an argument of the first [console.log]:
    nothing is called on a title that is [undefined] or [null]; any other
    title that is not a string has no [substring] to call. *)
Definition title_for_log (title : JsValue) : Result JsValue :=
  match title with
  | JUndefined | JNull => inr JUndefined
  | JStr s => inr (JStr (substring 0 50 s))
  | _ => inl (TypeError "title?.substring is not a function")
  end.

Definition handler (req : Req) : Prog HttpResult :=
  try_catch
    (let siteUrl := siteUrl req in
     let username := username req in
     let appPassword := appPassword req in
     let title := title req in
     let content := content req in
     let featuredImageId := featuredImageId req in
     let categoryId := categoryId req in
     (* console.log('Create post request:', { siteUrl,
          title: title?.substring(0, 50), categoryId }) *)
     liftR (title_for_log title);;;
     (if negb (str_truthy siteUrl) || negb (str_truthy username)
         || negb (str_truthy appPassword) || negb (js_truthy title)
         || negb (str_truthy content)
      then
        res_status_json 400
          (JObj [("error", JStr "Missing required fields")])
      else
        baseUrl <- liftR (str_replace_trailing_slash siteUrl);;
        let authHeader :=
          getWpAuthHeader (str_ToString username)
            (str_ToString appPassword) in
        let postData :=
          postData title content featuredImageId categoryId in
        response <-
          await_fetch (post_request baseUrl authHeader postData);;
        (* Handle redirects manually to preserve auth header *)
        response <-
          (if is_redirect_status (status response) then
             let redirectUrl := location response in
             if str_truthy redirectUrl then
               await_fetch
                 (redirected_request (str_ToString redirectUrl)
                    authHeader postData)
             else Ret response
           else Ret response);;
        if negb (ok response)
        then post_failed response
        else post_succeeded baseUrl response))
    catch_500.

End Posts.

(* ================================================================= *)
(** ** The media handler of [src/server.js]

    The earlier variant: no manual redirect handling, and the metadata
    update is not guarded.  Its categories handler reads the same as the
    one above, and its posts handler too, but for the redirect block and
    the log line. *)

Module ServerJs.

Definition image_request (imageUrl : JsStr) : Request :=
  {| req_url := str_ToString imageUrl;
     req_method := GET;
     req_headers := [];
     req_body := NoBody;
     req_redirect := None |}.

Definition upload_request (baseUrl authHeader : string)
  (formData : FormData) : Request :=
  {| req_url := baseUrl ++ "/wp-json/wp/v2/media";
     req_method := POST;
     req_headers := ("Authorization", authHeader) :: getHeaders formData;
     req_body := Multipart formData;
     req_redirect := None |}.

Definition media_handler (req : Media.Req) : Prog HttpResult :=
  try_catch
    (let siteUrl := Media.siteUrl req in
     let username := Media.username req in
     let appPassword := Media.appPassword req in
     let imageUrl := Media.imageUrl req in
     let title := Media.title req in
     if negb (str_truthy siteUrl) || negb (str_truthy username)
        || negb (str_truthy appPassword) || negb (str_truthy imageUrl)
     then
       res_status_json 400
         (JObj [("error",
                 JStr ("Missing required fields. imageUrl: "
                         ++ (if str_truthy imageUrl
                             then str_ToString imageUrl
                             else "MISSING")))])
     else
       http <- liftR (str_startsWith imageUrl "http://");;
       https <- (if negb http
                 then liftR (str_startsWith imageUrl "https://")
                 else Ret true);;
       if negb http && negb https then
         res_status_json 400
           (JObj [("error",
                   JStr ("Invalid image URL format: "
                           ++ str_ToString imageUrl))])
       else
         baseUrl <- liftR (str_replace_trailing_slash siteUrl);;
         let authHeader :=
           getWpAuthHeader (str_ToString username)
             (str_ToString appPassword) in
         imageResponse <- await_fetch (image_request imageUrl);;
         if negb (ok imageResponse) then
           res_status_json 400
             (JObj [("error", JStr "Failed to fetch image from URL")])
         else
           let imageBuffer := body imageResponse in
           let filename := filename title in
           (* Upload to WordPress *)
           formData <- new_FormData;;
           let formData :=
             append formData
               {| part_name := "file";
                  part_value := imageBuffer;
                  part_filename := filename;
                  part_contentType := "image/jpeg" |} in
           uploadResponse <-
             await_fetch (upload_request baseUrl authHeader formData);;
           if negb (ok uploadResponse) then
             errorData <- json uploadResponse;;
             message <- liftR (get_prop errorData "message");;
             res_status_json (status uploadResponse)
               (JObj [("error",
                       js_or message (JStr "Failed to upload media"))])
           else
             mediaItem <- json uploadResponse;;
             (if str_truthy title then
                id <- liftR (get_prop mediaItem "id");;
                await_fetch
                  (Media.alt_text_request baseUrl authHeader id title);;;
                Ret tt
              else Ret tt);;;
             id <- liftR (get_prop mediaItem "id");;
             source_url <- liftR (get_prop mediaItem "source_url");;
             res_json (JObj [("id", id); ("url", source_url)]))
    catch_500.

End ServerJs.

(* ================================================================= *)
(** ** Vocabulary of the statements *)

(** [v.key], for a [v] that is neither [null] nor [undefined]. *)
Definition field (key : string) (v : JsValue) : JsValue :=
  match v with
  | JObj fields =>
      match lookup_field key fields with
      | Some x => x
      | None => JUndefined
      end
  | _ => JUndefined
  end.

(** The name of a category: an object with a string [name]. *)
Definition category_name (cat : JsValue) : option string :=
  match cat with
  | JObj fields =>
      match lookup_field "name" fields with
      | Some (JStr n) => Some n
      | _ => None
      end
  | _ => None
  end.

(** [cat] is a category whose name equals [categoryName], letter case
    apart. *)
Definition named_like (categoryName : string) (cat : JsValue) : bool :=
  match category_name cat with
  | Some n => toLowerCase n =? toLowerCase categoryName
  | None => false
  end.

(** The [n]-th form a handler creates while it serves a request, once the
    image is appended to it. *)
Definition image_form (w : World) (n : nat) (imageBuffer : Body)
  (title : JsStr) : FormData :=
  {| fd_instance := n;
     fd_boundary := w_boundary w n;
     fd_parts := [ {| part_name := "file";
                      part_value := imageBuffer;
                      part_filename := filename title;
                      part_contentType := "image/jpeg" |} ] |}.

(** The final upstream response of an upload or a post creation, and the
    requests that led to it: the response to the [first] request, unless
    it is a redirect with a location, and then the response to the one
    request sent to that location.  [before] are the requests issued
    earlier. *)
Inductive final_response (w : World) (before : list Request)
  (first : Request) (follow_up : string -> Request)
  : list Request -> Response -> Prop :=
| final_first (r : Response) :
    w_fetch w before first = Resolved r ->
    is_redirect_status (status r) && str_truthy (location r) = false ->
    final_response w before first follow_up [first] r
| final_follow_up (r : Response) (loc : string) (r' : Response) :
    w_fetch w before first = Resolved r ->
    is_redirect_status (status r) = true ->
    location r = Some loc ->
    loc <> "" ->
    w_fetch w (before ++ [first]) (follow_up loc) = Resolved r' ->
    final_response w before first follow_up [first; follow_up loc] r'.

(** The message relayed for a final response that is not a success:
    the [message] of the JSON body when it has a truthy one, the fixed
    text [what] when the body is JSON without one, and [what] with the
    status code when the body is not JSON (or is the JSON [null]). *)
Definition relayed_message (what : string) (r : Response) : JsValue :=
  match body r with
  | RawBody _ _ | JsonBody JNull | JsonBody JUndefined =>
      JStr (what ++ ": " ++ string_of_Z (status r))
  | JsonBody v =>
      if js_truthy (field "message" v) then field "message" v
      else JStr what
  end.



(** Every request a program can issue, whatever the world answers and
    whichever empty forms it is handed, satisfies [P]. *)
Fixpoint AllFetch {A : Type} (P : Request -> Prop) (p : Prog A) : Prop :=
  match p with
  | Ret _ => True
  | Throw _ => True
  | Fetch rq k => P rq /\ forall o, AllFetch P (k o)
  | NewFormData k => forall fd, fd_parts fd = [] -> AllFetch P (k fd)
  end.

(* ================================================================= *)
(** ** Example worlds and requests *)

(** A world that answers the [n]-th request with the [n]-th outcome of a
    script, and refuses the connection once the script is over. *)
Definition scripted (outcomes : list FetchOutcome) : World :=
  {| w_fetch := fun hist _ =>
       nth (length hist) outcomes (Rejected "connect ECONNREFUSED");
     w_boundary := fun n => "boundary" ++ string_of_Z (Z.of_nat n) |}.

Definition travel_request (categoryName : JsStr) : Categories.Req :=
  {| Categories.siteUrl := Some "https://blog.example.org/";
     Categories.username := Some "editor";
     Categories.appPassword := Some "abcd efgh";
     Categories.categoryName := categoryName |}.

Definition Travel : JsValue :=
  JObj [("id", JNum 7); ("name", JStr "Travel")].

(** The search finds the categories "Travelogue" and "Travel". *)
Definition travel_world : World :=
  scripted
    [Resolved {| status := 200; location := None;
                 body := JsonBody
                           (JArr [JObj [("id", JNum 3);
                                        ("name", JStr "Travelogue")];
                                  Travel]) |}].

(** The search is answered 503; the creation succeeds. *)
Definition search_unavailable_world : World :=
  scripted
    [Resolved {| status := 503; location := None;
                 body := RawBody "Service Unavailable"
                           "invalid json response body" |};
     Resolved {| status := 201; location := None;
                 body := JsonBody (JObj [("id", JNum 12);
                                         ("name", JStr "travel")]) |}].

(** The upstream host cannot be reached. *)
Definition offline_world : World :=
  scripted [Rejected "getaddrinfo ENOTFOUND blog.example.org"].

Definition sunset_request : Media.Req :=
  {| Media.siteUrl := Some "https://blog.example.org/";
     Media.username := Some "editor";
     Media.appPassword := Some "abcd efgh";
     Media.imageUrl := Some "https://images.example.org/sunset.png";
     Media.title := Some "Sunset at sea" |}.

Definition sunset_image : Response :=
  {| status := 200; location := None;
     body := RawBody "PNG" "invalid json response body" |}.

Definition moved (loc : string) : Response :=
  {| status := 302; location := Some loc;
     body := RawBody "" "invalid json response body" |}.

(** The upload is answered 201 with a media item that has no [id]. *)
Definition media_without_id : Response :=
  {| status := 201; location := None;
     body := JsonBody
               (JObj [("source_url",
                       JStr "https://blog.example.org/sunset.jpg")]) |}.

Definition no_id_world : World :=
  scripted [Resolved sunset_image; Resolved media_without_id].

(** The upload succeeds; the metadata update cannot connect. *)
Definition created_media : Response :=
  {| status := 201; location := None;
     body := JsonBody
               (JObj [("id", JNum 41);
                      ("source_url",
                       JStr "https://blog.example.org/sunset.jpg")]) |}.

Definition patch_fails_world : World :=
  scripted [Resolved sunset_image; Resolved created_media].

(** The upload is redirected; the request that follows it creates the
    media item, and the metadata update is accepted. *)
Definition redirecting_world : World :=
  scripted
    [Resolved sunset_image;
     Resolved (moved "https://www.example.org/wp-json/wp/v2/media");
     Resolved created_media;
     Resolved created_media].

Definition hello_request : Posts.Req :=
  {| Posts.siteUrl := Some "https://blog.example.org";
     Posts.username := Some "editor";
     Posts.appPassword := Some "abcd efgh";
     Posts.title := JStr "Hello";
     Posts.content := Some "<p>World</p>";
     Posts.featuredImageId := JNum 41;
     Posts.categoryId := JUndefined |}.

(** The post is refused with a JSON body that has no [message]. *)
Definition forbidden : Response :=
  {| status := 403; location := None;
     body := JsonBody (JObj [("code", JStr "rest_forbidden")]) |}.

Definition forbidden_world : World := scripted [Resolved forbidden].

(** The post is redirected; the request that follows it creates it. *)
Definition redirecting_posts_world : World :=
  scripted
    [Resolved (moved "https://www.example.org/wp-json/wp/v2/posts");
     Resolved {| status := 201; location := None;
                 body := JsonBody
                           (JObj [("id", JNum 99);
                                  ("link",
                                   JStr "https://blog.example.org/?p=99")])
              |}].

(* ================================================================= *)
(** ** [POST /api/claude] *)

Module Claude.

(** [req.body], as the handler destructures it. *)
Record Req : Type := mkReq {
  prompt : JsValue;
  systemPrompt : JsValue
}.

(** The one upstream request; [apiKey] is
    [process.env.ANTHROPIC_API_KEY]. *)
Definition messages_request (apiKey : JsStr)
  (prompt systemPrompt : JsValue) : Request :=
  {| req_url := "https://api.anthropic.com/v1/messages";
     req_method := POST;
     req_headers := [("Content-Type", "application/json");
                     ("x-api-key", str_ToString apiKey);
                     ("anthropic-version", "2023-06-01")];
     req_body :=
       JsonText
         (JObj [("model", JStr "claude-sonnet-4-20250514");
                ("max_tokens", JNum 4000);
                ("system", systemPrompt);
                ("messages",
                 JArr [JObj [("role", JStr "user");
                             ("content", prompt)]])]);
     req_redirect := None |}.

(** [errorData.error?.message] *)
Definition error_message_of (errorData : JsValue) : Result JsValue :=
  bindR (get_prop errorData "error") (fun error =>
  match error with
  | JUndefined | JNull => inr JUndefined
  | _ => get_prop error "message"
  end).

Definition handler (apiKey : JsStr) (req : Req) : Prog HttpResult :=
  try_catch
    (let prompt := prompt req in
     let systemPrompt := systemPrompt req in
     response <-
       await_fetch (messages_request apiKey prompt systemPrompt);;
     if negb (ok response) then
       errorData <- json response;;
       message <- liftR (error_message_of errorData);;
       res_status_json (status response)
         (JObj [("error", js_or message (JStr "Claude API failed"))])
     else
       data <- json response;;
       res_json data)
    catch_500.

End Claude.

(* ================================================================= *)
(** ** More vocabulary *)

(** A program issues at most [n] requests, whatever the world answers. *)
Fixpoint FetchBound {A : Type} (n : nat) (p : Prog A) : Prop :=
  match p with
  | Ret _ => True
  | Throw _ => True
  | Fetch _ k =>
      match n with
      | 0 => False
      | S m => forall o, FetchBound m (k o)
      end
  | NewFormData k => forall fd, FetchBound n (k fd)
  end.

(** The requests a program can issue, by their place: the first ones
    satisfy the properties of [Ps], one each and in that order, and all
    that follow them satisfy [Q]. *)
Fixpoint Shape {A : Type} (Ps : list (Request -> Prop))
  (Q : Request -> Prop) (p : Prog A) : Prop :=
  match p with
  | Ret _ => True
  | Throw _ => True
  | Fetch rq k =>
      match Ps with
      | [] => Q rq /\ forall o, Shape [] Q (k o)
      | P :: Ps' => P rq /\ forall o, Shape Ps' Q (k o)
      end
  | NewFormData k => forall fd, fd_parts fd = [] -> Shape Ps Q (k fd)
  end.

(** The same, of a list of requests. *)
Fixpoint shaped (Ps : list (Request -> Prop)) (Q : Request -> Prop)
  (t : list Request) : Prop :=
  match t with
  | [] => True
  | rq :: rest =>
      match Ps with
      | [] => Q rq /\ shaped [] Q rest
      | P :: Ps' => P rq /\ shaped Ps' Q rest
      end
  end.

(** A title that is a string, or that is not there. *)
Definition is_string_or_absent (v : JsValue) : bool :=
  match v with
  | JUndefined | JNull | JStr _ => true
  | _ => false
  end.

(** The characters of a base64 text. *)
Definition is_base64_char (c : ascii) : bool :=
  is_alnum c || (c =? "+")%char || (c =? "/")%char || (c =? "=")%char.


(** The characters of an upload's filename. *)
Definition is_filename_char (c : ascii) : bool :=
  is_alnum c || (c =? "-")%char || (c =? ".")%char.

Fixpoint forall_chars (f : ascii -> bool) (s : string) : bool :=
  match s with
  | EmptyString => true
  | String c rest => f c && forall_chars f rest
  end.

(** An Anthropic-style error body. *)
Definition overloaded : Response :=
  {| status := 529; location := None;
     body := JsonBody
               (JObj [("type", JStr "error");
                      ("error",
                       JObj [("type", JStr "overloaded_error");
                             ("message", JStr "Overloaded")])]) |}.

Definition claude_request : Claude.Req :=
  {| Claude.prompt := JStr "Summarise the transcript";
     Claude.systemPrompt := JStr "You are an editor" |}.

Definition ftp_request : Media.Req :=
  {| Media.siteUrl := Some "https://blog.example.org/";
     Media.username := Some "editor";
     Media.appPassword := Some "abcd efgh";
     Media.imageUrl := Some "ftp://x/y.jpg";
     Media.title := None |}.

Definition untitled_request : Posts.Req :=
  {| Posts.siteUrl := Some "https://blog.example.org";
     Posts.username := Some "editor";
     Posts.appPassword := Some "abcd efgh";
     Posts.title := JStr "";
     Posts.content := Some "<p>World</p>";
     Posts.featuredImageId := JUndefined;
     Posts.categoryId := JUndefined |}.

Definition created_post : Response :=
  {| status := 201; location := None;
     body := JsonBody
               (JObj [("id", JNum 99);
                      ("link", JStr "https://blog.example.org/?p=99")]) |}.

Definition image_missing : Response :=
  {| status := 404; location := None;
     body := RawBody "Not Found" "invalid json response body" |}.

Definition gateway_error : Response :=
  {| status := 502; location := None;
     body := RawBody "<html>Bad Gateway</html>"
               "invalid json response body at https://blog.example.org/wp-json/wp/v2/media reason: Unexpected token < in JSON at position 0" |}.

(* ================================================================= *)
(** * Properties *)

(** ** The credential encoder *)

Section Base64.

#[local] Ltac Zify.zify_post_hook ::= Z.div_mod_to_equations.

Lemma string_ind3 (P : string -> Prop) :
  P "" ->
  (forall a, P (String a "")) ->
  (forall a b, P (String a (String b ""))) ->
  (forall a b c s, P s -> P (String a (String b (String c s)))) ->
  forall s, P s.
Proof.
  intros H0 H1 H2 H3.
  fix IH 1.
  intros [|a [|b [|c s]]].
  - exact H0.
  - apply H1.
  - apply H2.
  - apply H3. apply IH.
Qed.

Lemma b64_index_char n : n < 64 -> b64_index (b64_char n) = Some n.
Proof.
  intros H.
  do 64 (destruct n as [|n]; [reflexivity|]).
  lia.
Qed.

Lemma b64_index_pad : b64_index "="%char = None.
Proof. reflexivity. Qed.

Lemma sextets_lt x y z :
  x < 256 -> y < 256 -> z < 256 ->
  x / 4 < 64 /\ (x mod 4) * 16 + y / 16 < 64 /\
  (y mod 16) * 4 + z / 64 < 64 /\ z mod 64 < 64.
Proof. lia. Qed.

Lemma sextets_join x y z :
  x < 256 -> y < 256 -> z < 256 ->
  (x / 4) * 4 + ((x mod 4) * 16 + y / 16) / 16 = x /\
  (((x mod 4) * 16 + y / 16) mod 16) * 16
    + ((y mod 16) * 4 + z / 64) / 4 = y /\
  (((y mod 16) * 4 + z / 64) mod 4) * 64 + z mod 64 = z.
Proof. lia. Qed.

Lemma decode_chunk i1 i2 i3 i4 rest :
  i1 < 64 -> i2 < 64 -> i3 < 64 -> i4 < 64 ->
  base64_decode
    (String (b64_char i1) (String (b64_char i2)
       (String (b64_char i3) (String (b64_char i4) rest))))
  = match base64_decode rest with
    | Some r =>
        Some (String (ascii_of_nat (i1 * 4 + i2 / 16))
                (String (ascii_of_nat ((i2 mod 16) * 16 + i3 / 4))
                   (String (ascii_of_nat ((i3 mod 4) * 64 + i4)) r)))
    | None => None
    end.
Proof.
  intros H1 H2 H3 H4.
  cbn [base64_decode].
  rewrite !b64_index_char by assumption.
  reflexivity.
Qed.

Lemma decode_pad1 i1 i2 :
  i1 < 64 -> i2 < 64 ->
  base64_decode (String (b64_char i1) (String (b64_char i2) "=="))
  = Some (String (ascii_of_nat (i1 * 4 + i2 / 16)) "").
Proof.
  intros H1 H2.
  cbn [base64_decode].
  rewrite !b64_index_char by assumption.
  reflexivity.
Qed.

Lemma decode_pad2 i1 i2 i3 :
  i1 < 64 -> i2 < 64 -> i3 < 64 ->
  base64_decode
    (String (b64_char i1) (String (b64_char i2)
       (String (b64_char i3) "=")))
  = Some (String (ascii_of_nat (i1 * 4 + i2 / 16))
            (String (ascii_of_nat ((i2 mod 16) * 16 + i3 / 4)) "")).
Proof.
  intros H1 H2 H3.
  cbn [base64_decode].
  rewrite !b64_index_char by assumption.
  reflexivity.
Qed.

Lemma pad1_arith x :
  x < 256 ->
  x / 4 < 64 /\ (x mod 4) * 16 < 64 /\
  (x / 4) * 4 + ((x mod 4) * 16) / 16 = x.
Proof. lia. Qed.

Lemma pad2_arith x y :
  x < 256 -> y < 256 ->
  (y mod 16) * 4 < 64 /\
  (((x mod 4) * 16 + y / 16) mod 16) * 16 + ((y mod 16) * 4) / 4 = y.
Proof. lia. Qed.

Theorem base64_roundtrip s : base64_decode (base64_encode s) = Some s.
Proof.
  induction s as [|a|a b|a b c s IH] using string_ind3.
  - reflexivity.
  - pose proof (nat_ascii_bounded a) as Ha.
    destruct (pad1_arith _ Ha) as (L1 & L2 & J1).
    cbn [base64_encode].
    rewrite decode_pad1 by assumption.
    rewrite J1, ascii_nat_embedding. reflexivity.
  - pose proof (nat_ascii_bounded a) as Ha.
    pose proof (nat_ascii_bounded b) as Hb.
    destruct (sextets_lt _ _ 0 Ha Hb ltac:(lia)) as (L1 & L2 & _).
    destruct (sextets_join _ _ 0 Ha Hb ltac:(lia)) as (J1 & _).
    destruct (pad2_arith _ _ Ha Hb) as (L3 & J2).
    cbn [base64_encode].
    rewrite decode_pad2 by assumption.
    rewrite J1, J2, !ascii_nat_embedding. reflexivity.
  - pose proof (nat_ascii_bounded a) as Ha.
    pose proof (nat_ascii_bounded b) as Hb.
    pose proof (nat_ascii_bounded c) as Hc.
    destruct (sextets_lt _ _ _ Ha Hb Hc) as (L1 & L2 & L3 & L4).
    destruct (sextets_join _ _ _ Ha Hb Hc) as (J1 & J2 & J3).
    cbn [base64_encode].
    rewrite decode_chunk by assumption.
    rewrite IH, J1, J2, J3, !ascii_nat_embedding. reflexivity.
Qed.

End Base64.

(** C9.  For every pair of strings, empty ones included, the credential
    encoder returns ["Basic "] followed by the base64 encoding of
    [username], a colon and [appPassword], and decoding that suffix gives
    back exactly [username:appPassword].  The encoder is a total function:
    it has no failure mode. *)
Theorem getWpAuthHeader_decodes :
  forall username appPassword : string,
    getWpAuthHeader username appPassword
    = "Basic " ++ base64_encode (username ++ ":" ++ appPassword)
    /\ base64_decode (base64_encode (username ++ ":" ++ appPassword))
       = Some (username ++ ":" ++ appPassword).
Proof.
  intros username appPassword. split.
  - reflexivity.
  - apply base64_roundtrip.
Qed.

(** ** Running a handler *)

Lemma run_catch_500_total (p : Prog HttpResult) :
  forall w hist nfd,
    exists t res, run w hist nfd (try_catch p catch_500) = (t, inr res).
Proof.
  induction p as [a|e|rq k IH|k IH]; intros w hist nfd; cbn.
  - eauto.
  - eauto.
  - destruct (IH (w_fetch w hist rq) w (hist ++ [rq])%list nfd) as (t & res & E).
    rewrite E. eauto.
  - apply IH.
Qed.

Lemma str_truthy_Some s : s <> "" -> str_truthy (Some s) = true.
Proof.
  intros H. cbn. destruct s; [congruence | reflexivity].
Qed.

Arguments getWpAuthHeader : simpl never.
Arguments replace_trailing_slash : simpl never.
Arguments encodeURIComponent : simpl never.
Arguments toLowerCase : simpl never.
Arguments string_of_Z : simpl never.
Arguments ToString : simpl never.
Arguments filename : simpl never.
Arguments startsWith : simpl never.
Arguments Categories.search_request : simpl never.
Arguments Categories.create_request : simpl never.

Ltac finish_catch_500 :=
  match goal with
  | |- context [run ?w ?h ?n (try_catch ?p catch_500)] =>
      let t := fresh "t" in
      let res := fresh "res" in
      let E := fresh "E" in
      destruct (run_catch_500_total p w h n) as (t & res & E);
      rewrite E
  end.

(** C10.  The categories endpoint validates [siteUrl], [username] and
    [appPassword] only.  When the three are there (truthy, as the handler
    tests them) and [categoryName] is missing, the request is not turned
    down by validation: the category search is issued, as the first
    upstream request, with the missing name interpolated into its URL as
    [undefined]. *)
Theorem categories_missing_name_still_searches :
  forall (w : World) (s u p : string),
    s <> "" -> u <> "" -> p <> "" ->
    let req := Categories.mkReq (Some s) (Some u) (Some p) None in
    let search :=
      Categories.search_request (replace_trailing_slash s)
        (getWpAuthHeader u p) None in
    req_url search
    = replace_trailing_slash s ++ "/wp-json/wp/v2/categories?search=undefined"
    /\ exists rest result,
         serve w (Categories.handler req) = (search :: rest, inr result).
Proof.
  intros w s u p Hs Hu Hp req search. split; [reflexivity|].
  unfold serve, Categories.handler, req.
  cbn [Categories.siteUrl Categories.username Categories.appPassword
       Categories.categoryName].
  rewrite !str_truthy_Some by assumption.
  cbn. finish_catch_500. eauto.
Qed.




Ltac categories_start Hs Hu Hp :=
  unfold serve, Categories.handler;
  cbn [Categories.siteUrl Categories.username Categories.appPassword
       Categories.categoryName];
  rewrite !str_truthy_Some by assumption;
  cbn.

Lemma create_category_run w hist nfd base auth cn :
  exists result,
    run w hist nfd
      (try_catch (Categories.create_category base auth cn) catch_500)
    = ([Categories.create_request base auth cn], inr result).
Proof.
  unfold Categories.create_category. cbn.
  destruct (w_fetch w hist (Categories.create_request base auth cn))
    as [r|m]; cbn; [|eauto].
  unfold json.
  destruct (ok r), (body r) as [v|text reason]; cbn; eauto;
    destruct (get_prop v "message") eqn:?, (get_prop v "id") eqn:?; cbn; eauto;
    destruct (get_prop v "name"); cbn; eauto.
Qed.

Lemma create_category_run_same w w' hist nfd base auth cn :
  w_fetch w' hist (Categories.create_request base auth cn)
  = w_fetch w hist (Categories.create_request base auth cn) ->
  run w' hist nfd
    (try_catch (Categories.create_category base auth cn) catch_500)
  = run w hist nfd
      (try_catch (Categories.create_category base auth cn) catch_500).
Proof.
  intros Hsame. unfold Categories.create_category. cbn. rewrite Hsame.
  destruct (w_fetch w hist (Categories.create_request base auth cn))
    as [r|m]; cbn; [|reflexivity].
  unfold json.
  destruct (ok r), (body r) as [v|text reason]; cbn; try reflexivity;
    destruct (get_prop v "message") eqn:?, (get_prop v "id") eqn:?; cbn;
    try reflexivity;
    destruct (get_prop v "name"); cbn; reflexivity.
Qed.

(** C5, as amended.  A search call answered with a status that is not
    2xx is not fatal: the resolver goes on to the creation step, and serves
    the request exactly as it does when the search succeeds and finds no
    category of that name.  A search call that fails at the network level
    is fatal: the resolver answers 500 with the message of the error, and
    issues no creation request. *)
Theorem search_failure_falls_through_to_create :
  forall (w : World) (s u p : string) (categoryName : JsStr),
    s <> "" -> u <> "" -> p <> "" ->
    let req :=
      Categories.mkReq (Some s) (Some u) (Some p) categoryName in
    let base := replace_trailing_slash s in
    let auth := getWpAuthHeader u p in
    let search := Categories.search_request base auth categoryName in
    let create := Categories.create_request base auth categoryName in
    (forall r : Response,
        w_fetch w [] search = Resolved r ->
        ok r = false ->
        (exists result,
            serve w (Categories.handler req)
            = ([search; create], inr result))
        /\ forall (w' : World) (r' : Response) (cats : list JsValue),
             w_fetch w' [] search = Resolved r' ->
             ok r' = true ->
             body r' = JsonBody (JArr cats) ->
             find_first (Categories.name_matches categoryName) cats
             = inr JUndefined ->
             w_fetch w' [search] create = w_fetch w [search] create ->
             serve w' (Categories.handler req)
             = serve w (Categories.handler req))
    /\ (forall m : string,
           w_fetch w [] search = Rejected m ->
           serve w (Categories.handler req)
           = ([search],
              inr {| res_status := 500;
                     res_body := JObj [("error", JStr m)] |})).
Proof.
  intros w s u p cn Hs Hu Hp req base auth search create.
  assert (Hfall : forall w0 : World,
             (exists r, w_fetch w0 [] search = Resolved r /\ ok r = false)
             \/ (exists r cats,
                    w_fetch w0 [] search = Resolved r /\ ok r = true
                    /\ body r = JsonBody (JArr cats)
                    /\ find_first (Categories.name_matches cn) cats
                       = inr JUndefined) ->
             serve w0 (Categories.handler req)
             = let (t, r) :=
                 run w0 [search] 0
                   (try_catch (Categories.create_category base auth cn)
                      catch_500) in
               (search :: t, r)).
  { intros w0 H. unfold req. categories_start Hs Hu Hp.
    fold base auth search.
    destruct H as [(r & Hw & Hok) | (r & cats & Hw & Hok & Hb & Hf)];
      rewrite Hw; cbn; rewrite Hok; cbn; [reflexivity|].
    unfold json. rewrite Hb. cbn. rewrite Hf. cbn. reflexivity. }
  split.
  - intros r Hw Hok.
    assert (E := Hfall w (or_introl (ex_intro _ r (conj Hw Hok)))).
    split.
    + rewrite E.
      destruct (create_category_run w [search] 0 base auth cn) as [res Hc].
      rewrite Hc. eauto.
    + intros w' r' cats Hw' Hok' Hb' Hf' Hsame.
      rewrite E, (Hfall w') by (right; eauto 6).
      rewrite (create_category_run_same w w') by exact Hsame.
      reflexivity.
  - intros m Hw. unfold req. categories_start Hs Hu Hp.
    fold base auth search. rewrite Hw. reflexivity.
Qed.

(** ** The media handler, up to its final upstream response *)

Arguments Media.image_request : simpl never.
Arguments Media.upload_request : simpl never.
Arguments Media.redirected_request : simpl never.
Arguments Media.alt_text_request : simpl never.
Arguments Media.upload_failed : simpl never.
Arguments Media.upload_succeeded : simpl never.

Lemma redirect_not_ok r : is_redirect_status (status r) = true -> ok r = false.
Proof. unfold is_redirect_status, ok. lia. Qed.

Lemma get_prop_field v key :
  v <> JNull -> v <> JUndefined -> get_prop v key = inr (field key v).
Proof.
  intros H1 H2. destruct v; try congruence; try reflexivity.
  cbn. destruct (lookup_field key fields); reflexivity.
Qed.

Lemma startsWith_nonempty img :
  startsWith img "http://" || startsWith img "https://" = true -> img <> "".
Proof. intros H ->. discriminate H. Qed.

Lemma upload_failed_run w hist nfd r :
  run w hist nfd (try_catch (Media.upload_failed r) catch_500)
  = ([], inr {| res_status := status r;
                res_body :=
                  JObj [("error",
                         relayed_message "Failed to upload media" r)] |}).
Proof.
  unfold Media.upload_failed, relayed_message, js_or.
  destruct (body r) as [v|text reason]; [|reflexivity].
  destruct v; try reflexivity; cbn;
    try (destruct (lookup_field "message" fields) as [m|]; cbn;
         try destruct (js_truthy m)); reflexivity.
Qed.

Lemma upload_succeeded_run w hist nfd base auth title r v :
  body r = JsonBody v -> v <> JNull -> v <> JUndefined ->
  run w hist nfd
    (try_catch (Media.upload_succeeded base auth title r) catch_500)
  = ((if str_truthy title && js_truthy (field "id" v)
      then [Media.alt_text_request base auth (field "id" v) title]
      else []),
     inr {| res_status := 200;
            res_body := JObj [("id", field "id" v);
                              ("url", field "source_url" v)] |}).
Proof.
  intros Hb H1 H2. unfold Media.upload_succeeded, json. rewrite Hb. cbn.
  rewrite !(get_prop_field v) by assumption. cbn.
  destruct (str_truthy title); cbn; [|reflexivity].
  destruct (js_truthy (field "id" v)); cbn; [|reflexivity].
  destruct (w_fetch w hist _); reflexivity.
Qed.

Lemma media_finish_trace w hist nfd base auth title r :
  exists t res,
    run w hist nfd
      (try_catch
         (if negb (ok r) then Media.upload_failed r
          else Media.upload_succeeded base auth title r) catch_500)
    = (t, inr res)
    /\ (t = [] \/ exists id, t = [Media.alt_text_request base auth id title]).
Proof.
  destruct (ok r); cbn [negb].
  2:{ rewrite upload_failed_run. eauto. }
  destruct (body r) as [v|text reason] eqn:Hb.
  - destruct v;
      try (rewrite (upload_succeeded_run _ _ _ _ _ _ _ _ Hb)
            by discriminate;
           destruct (str_truthy title && js_truthy _); eauto 6);
      unfold Media.upload_succeeded, json; rewrite Hb; cbn; eauto.
  - unfold Media.upload_succeeded, json. rewrite Hb. cbn. eauto.
Qed.

Ltac fold_form w n r0 title :=
  change (append {| fd_instance := n; fd_boundary := w_boundary w n;
                    fd_parts := [] |} _)
    with (image_form w n (body r0) title).

Ltac media_start Himg :=
  unfold serve, Media.handler;
  cbn [Media.siteUrl Media.username Media.appPassword Media.imageUrl
       Media.title];
  rewrite !str_truthy_Some by (assumption || exact (startsWith_nonempty _ Himg));
  cbn;
  let E := fresh "E" in
  destruct (startsWith _ "http://") eqn:E; cbn;
  [| cbn in Himg; rewrite Himg; cbn].

Lemma media_reaches_final :
  forall (w : World) (s u p img : string) (title : JsStr)
         (r0 : Response) (sent : list Request) (rf : Response),
    s <> "" -> u <> "" -> p <> "" ->
    startsWith img "http://" || startsWith img "https://" = true ->
    let req := Media.mkReq (Some s) (Some u) (Some p) (Some img) title in
    let base := replace_trailing_slash s in
    let auth := getWpAuthHeader u p in
    let image := Media.image_request (Some img) in
    let upload :=
      Media.upload_request (base ++ "/wp-json/wp/v2/media") auth
        (image_form w 0 (body r0) title) in
    let follow_up := fun loc =>
      Media.redirected_request loc auth (image_form w 1 (body r0) title) in
    w_fetch w [] image = Resolved r0 ->
    ok r0 = true ->
    final_response w [image] upload follow_up sent rf ->
    serve w (Media.handler req)
    = let (t, r) :=
        run w (image :: sent) (length sent)
          (try_catch
             (if negb (ok rf) then Media.upload_failed rf
              else Media.upload_succeeded base auth title rf) catch_500) in
      (image :: sent ++ t, r).
Proof.
  intros w s u p img title r0 sent rf Hs Hu Hp Himg req base auth image
    upload follow_up H0 Hok0 Hfinal.
  unfold req.
  destruct Hfinal as [r Hw Hno | r loc r' Hw Hred Hloc Hne Hw'].
  - media_start Himg; fold base auth image; rewrite H0; cbn; rewrite Hok0;
      cbn; fold_form w 0 r0 title; fold upload;
      rewrite Hw; cbn.
    all: destruct (is_redirect_status (status r)); cbn in Hno |- *;
      rewrite ?Hno; cbn;
      destruct (run w [image; upload] 1 _); reflexivity.
  - cbn [app] in Hw'.
    media_start Himg; fold base auth image; rewrite H0; cbn; rewrite Hok0;
      cbn; fold_form w 0 r0 title; fold upload;
      rewrite Hw; cbn; rewrite Hred, Hloc, (str_truthy_Some _ Hne); cbn;
      fold_form w 1 r0 title;
      change (Media.redirected_request loc auth
                (image_form w 1 (body r0) title)) with (follow_up loc);
      rewrite Hw'; cbn;
      destruct (run w [image; upload; follow_up loc] 2 _); reflexivity.
Qed.

(** ** What every request of a handler looks like *)

Section AllFetch.
Variable P : Request -> Prop.

Lemma AllFetch_run {A} (p : Prog A) :
  AllFetch P p -> forall w hist nfd, Forall P (fst (run w hist nfd p)).
Proof.
  induction p as [a|e|rq k IH|k IH]; cbn; intros H w hist nfd.
  - constructor.
  - constructor.
  - destruct H as [Hrq Hk].
    specialize (IH _ (Hk (w_fetch w hist rq)) w (hist ++ [rq])%list nfd).
    destruct (run w (hist ++ [rq])%list nfd (k (w_fetch w hist rq))).
    constructor; assumption.
  - apply IH, H. reflexivity.
Qed.

Lemma AllFetch_bind {A B} (p : Prog A) (f : A -> Prog B) :
  AllFetch P p -> (forall a, AllFetch P (f a)) -> AllFetch P (bind p f).
Proof.
  intros Hp Hf. induction p as [a|e|rq k IH|k IH]; cbn in *.
  - apply Hf.
  - exact I.
  - destruct Hp as [Hrq Hk]. split; [assumption|].
    intros o. apply IH, Hk.
  - intros fd Hfd. apply IH, Hp, Hfd.
Qed.

Lemma AllFetch_try_catch {A} (p : Prog A) (h : JsError -> Prog A) :
  AllFetch P p -> (forall e, AllFetch P (h e)) ->
  AllFetch P (try_catch p h).
Proof.
  intros Hp Hh. induction p as [a|e|rq k IH|k IH]; cbn in *.
  - exact I.
  - apply Hh.
  - destruct Hp as [Hrq Hk]. split; [assumption|].
    intros o. apply IH, Hk.
  - intros fd Hfd. apply IH, Hp, Hfd.
Qed.

Lemma AllFetch_liftR {A} (r : Result A) : AllFetch P (liftR r).
Proof. destruct r; exact I. Qed.

Lemma AllFetch_json r : AllFetch P (json r).
Proof. unfold json. destruct (body r); exact I. Qed.

Lemma AllFetch_await rq : P rq -> AllFetch P (await_fetch rq).
Proof. intros H. split; [exact H|]. intros []; exact I. Qed.

Lemma AllFetch_new_FormData : AllFetch P new_FormData.
Proof. intros fd _. exact I. Qed.

Lemma AllFetch_Ret {A} (a : A) : AllFetch P (Ret a).
Proof. exact I. Qed.

Lemma AllFetch_result s b : AllFetch P (res_status_json s b).
Proof. exact I. Qed.

Lemma AllFetch_catch_500 e : AllFetch P (catch_500 e).
Proof. exact I. Qed.
End AllFetch.

Ltac all_fetch_step :=
  lazymatch goal with
  | |- AllFetch _ (bind _ _) => apply AllFetch_bind; [|intros ?]
  | |- AllFetch _ (try_catch _ _) => apply AllFetch_try_catch; [|intros ?]
  | |- AllFetch _ (liftR _) => apply AllFetch_liftR
  | |- AllFetch _ (json _) => apply AllFetch_json
  | |- AllFetch _ (await_fetch _) => apply AllFetch_await
  | |- AllFetch _ new_FormData => apply AllFetch_new_FormData
  | |- AllFetch _ (Ret _) => exact I
  | |- AllFetch _ (res_status_json _ _) => exact I
  | |- AllFetch _ (catch_500 _) => exact I
  | |- AllFetch _ (if ?b then _ else _) => destruct b
  | |- AllFetch _ (match ?x with _ => _ end) => destruct x
  end.

Ltac all_fetch := repeat all_fetch_step.

Lemma categories_requests_follow w req :
  Forall (fun rq => req_redirect rq = None)
    (fst (serve w (Categories.handler req))).
Proof.
  apply AllFetch_run.
  unfold Categories.handler, Categories.create_category, res_json.
  all_fetch; reflexivity.
Qed.

(** ** The posts handler, up to its final upstream response *)

Arguments Posts.post_request : simpl never.
Arguments Posts.redirected_request : simpl never.
Arguments Posts.post_failed : simpl never.
Arguments Posts.post_succeeded : simpl never.
Arguments Posts.postData : simpl never.

Lemma post_failed_run w hist nfd r :
  run w hist nfd (try_catch (Posts.post_failed r) catch_500)
  = ([], inr {| res_status := status r;
                res_body :=
                  JObj [("error",
                         relayed_message "Failed to create post" r)] |}).
Proof.
  unfold Posts.post_failed, relayed_message, js_or.
  destruct (body r) as [v|text reason]; [|reflexivity].
  destruct v; try reflexivity; cbn;
    try (destruct (lookup_field "message" fields) as [m|]; cbn;
         try destruct (js_truthy m)); reflexivity.
Qed.

Lemma post_finish_trace w hist nfd base r :
  exists res,
    run w hist nfd
      (try_catch
         (if negb (ok r) then Posts.post_failed r
          else Posts.post_succeeded base r) catch_500)
    = ([], inr res).
Proof.
  destruct (ok r); cbn [negb].
  2:{ rewrite post_failed_run. eauto. }
  unfold Posts.post_succeeded, json.
  destruct (body r) as [v|text reason]; cbn; eauto.
  destruct (get_prop v "id") eqn:?; cbn; eauto.
  destruct (get_prop v "link"); cbn; eauto.
Qed.

Lemma js_truthy_JStr s : s <> "" -> js_truthy (JStr s) = true.
Proof. exact (str_truthy_Some s). Qed.

Ltac posts_start :=
  unfold serve, Posts.handler;
  cbn [Posts.siteUrl Posts.username Posts.appPassword Posts.title
       Posts.content Posts.featuredImageId Posts.categoryId];
  rewrite !str_truthy_Some by assumption;
  rewrite js_truthy_JStr by assumption;
  cbn.

Lemma posts_reaches_final :
  forall (w : World) (s u p t c : string) (fid cid : JsValue)
         (sent : list Request) (rf : Response),
    s <> "" -> u <> "" -> p <> "" -> t <> "" -> c <> "" ->
    let req := Posts.mkReq (Some s) (Some u) (Some p) (JStr t) (Some c)
                 fid cid in
    let base := replace_trailing_slash s in
    let auth := getWpAuthHeader u p in
    let payload := Posts.postData (JStr t) (Some c) fid cid in
    let post := Posts.post_request base auth payload in
    let follow_up := fun loc => Posts.redirected_request loc auth payload in
    final_response w [] post follow_up sent rf ->
    serve w (Posts.handler req)
    = let (rest, r) :=
        run w sent 0
          (try_catch
             (if negb (ok rf) then Posts.post_failed rf
              else Posts.post_succeeded base rf) catch_500) in
      ((sent ++ rest)%list, r).
Proof.
  intros w s u p t c fid cid sent rf Hs Hu Hp Ht Hc req base auth payload
    post follow_up Hfinal.
  unfold req.
  destruct Hfinal as [r Hw Hno | r loc r' Hw Hred Hloc Hne Hw'].
  - posts_start. fold base auth payload post. rewrite Hw. cbn.
    destruct (is_redirect_status (status r)); cbn in Hno |- *;
      rewrite ?Hno; cbn;
      destruct (run w [post] 0 _); reflexivity.
  - cbn [app] in Hw'.
    posts_start. fold base auth payload post. rewrite Hw. cbn.
    rewrite Hred, Hloc, (str_truthy_Some _ Hne). cbn.
    change (Posts.redirected_request loc auth payload) with (follow_up loc).
    rewrite Hw'. cbn.
    destruct (run w [post; follow_up loc] 0 _); reflexivity.
Qed.

(** ** Redirects *)

Lemma media_redirect_one_hop :
  forall (w : World) (s u p img : string) (title : JsStr)
         (r0 r1 : Response) (loc : string),
    s <> "" -> u <> "" -> p <> "" ->
    startsWith img "http://" || startsWith img "https://" = true ->
    let req := Media.mkReq (Some s) (Some u) (Some p) (Some img) title in
    let base := replace_trailing_slash s in
    let auth := getWpAuthHeader u p in
    let image := Media.image_request (Some img) in
    let upload :=
      Media.upload_request (base ++ "/wp-json/wp/v2/media") auth
        (image_form w 0 (body r0) title) in
    let follow_up :=
      Media.redirected_request loc auth (image_form w 1 (body r0) title) in
    w_fetch w [] image = Resolved r0 ->
    ok r0 = true ->
    w_fetch w [image] upload = Resolved r1 ->
    is_redirect_status (status r1) = true ->
    location r1 = Some loc ->
    loc <> "" ->
    exists rest result,
      serve w (Media.handler req)
      = (image :: upload :: follow_up :: rest, inr result)
      /\ (rest = []
          \/ exists id, rest = [Media.alt_text_request base auth id title])
      /\ (forall r2,
             w_fetch w [image; upload] follow_up = Resolved r2 ->
             ok r2 = false ->
             rest = []
             /\ result
                = {| res_status := status r2;
                     res_body :=
                       JObj [("error",
                              relayed_message "Failed to upload media"
                                r2)] |})
      /\ (forall m,
             w_fetch w [image; upload] follow_up = Rejected m ->
             rest = []
             /\ result
                = {| res_status := 500;
                     res_body := JObj [("error", JStr m)] |}).
Proof.
  intros w s u p img title r0 r1 loc Hs Hu Hp Himg req base auth image
    upload follow_up H0 Hok0 Hw Hred Hloc Hne.
  destruct (w_fetch w [image; upload] follow_up) as [r2|m] eqn:Hw2.
  - pose proof (final_follow_up w [image] upload
                  (fun l => Media.redirected_request l auth
                              (image_form w 1 (body r0) title))
                  r1 loc r2 Hw Hred Hloc Hne Hw2) as Hfinal.
    pose proof (media_reaches_final w s u p img title r0 _ _ Hs Hu Hp Himg
                  H0 Hok0 Hfinal) as E.
    cbv beta zeta in E. fold req base auth image upload follow_up in E.
    destruct (media_finish_trace w [image; upload; follow_up] 2 base auth
                title r2) as (t & res & Hrun & Ht).
    cbn [length app] in E. rewrite Hrun in E.
    exists t, res. split; [exact E|]. split; [exact Ht|].
    split; [|discriminate].
    intros r2' Er2 Hok2. inversion Er2; subst r2'.
    rewrite Hok2 in Hrun. cbn [negb] in Hrun.
    rewrite upload_failed_run in Hrun. inversion Hrun. split; reflexivity.
  - exists [], {| res_status := 500; res_body := JObj [("error", JStr m)] |}.
    split; [|split; [left; reflexivity
                    | split; [discriminate
                             | intros m' E; inversion E; split;
                               reflexivity]]].
    unfold req.
    media_start Himg; fold base auth image; rewrite H0; cbn; rewrite Hok0;
      cbn; fold_form w 0 r0 title; fold upload;
      rewrite Hw; cbn; rewrite Hred, Hloc, (str_truthy_Some _ Hne); cbn;
      fold_form w 1 r0 title; fold follow_up;
      rewrite Hw2; reflexivity.
Qed.

Lemma posts_redirect_one_hop :
  forall (w : World) (s u p t c : string) (fid cid : JsValue)
         (r1 : Response) (loc : string),
    s <> "" -> u <> "" -> p <> "" -> t <> "" -> c <> "" ->
    let req := Posts.mkReq (Some s) (Some u) (Some p) (JStr t) (Some c)
                 fid cid in
    let base := replace_trailing_slash s in
    let auth := getWpAuthHeader u p in
    let payload := Posts.postData (JStr t) (Some c) fid cid in
    let post := Posts.post_request base auth payload in
    let follow_up := Posts.redirected_request loc auth payload in
    w_fetch w [] post = Resolved r1 ->
    is_redirect_status (status r1) = true ->
    location r1 = Some loc ->
    loc <> "" ->
    exists result,
      serve w (Posts.handler req) = ([post; follow_up], inr result)
      /\ (forall r2,
             w_fetch w [post] follow_up = Resolved r2 ->
             ok r2 = false ->
             result
             = {| res_status := status r2;
                  res_body :=
                    JObj [("error",
                           relayed_message "Failed to create post" r2)] |})
      /\ (forall m,
             w_fetch w [post] follow_up = Rejected m ->
             result
             = {| res_status := 500;
                  res_body := JObj [("error", JStr m)] |}).
Proof.
  intros w s u p t c fid cid r1 loc Hs Hu Hp Ht Hc req base auth payload
    post follow_up Hw Hred Hloc Hne.
  destruct (w_fetch w [post] follow_up) as [r2|m] eqn:Hw2.
  - pose proof (final_follow_up w [] post
                  (fun l => Posts.redirected_request l auth payload)
                  r1 loc r2 Hw Hred Hloc Hne Hw2) as Hfinal.
    pose proof (posts_reaches_final w s u p t c fid cid _ _ Hs Hu Hp Ht Hc
                  Hfinal) as E.
    cbv beta zeta in E. fold req base auth payload post follow_up in E.
    destruct (post_finish_trace w [post; follow_up] 0 base r2)
      as (res & Hrun).
    rewrite Hrun in E. cbn [app] in E.
    exists res. split; [exact E|]. split; [|discriminate].
    intros r2' Er2 Hok2. inversion Er2; subst r2'.
    rewrite Hok2 in Hrun. cbn [negb] in Hrun.
    rewrite post_failed_run in Hrun. now inversion Hrun.
  - exists {| res_status := 500; res_body := JObj [("error", JStr m)] |}.
    split; [|split; [discriminate | intros m' E; now inversion E]].
    unfold req. posts_start. fold base auth payload post. rewrite Hw. cbn.
    rewrite Hred, Hloc, (str_truthy_Some _ Hne). cbn. fold follow_up.
    rewrite Hw2. reflexivity.
Qed.

(** C1, as amended.  When the response to a media upload or to a post
    creation has a status among 301, 302, 307 and 308 and carries a
    Location header (a non-empty [headers.get('location')], which is what
    the handlers test), the handler issues exactly one follow-up request:
    to that location, with the same method, with the Authorization header
    of the first request attached again, and with a body built anew (for
    an upload a new form instance holding the same file, for a post the
    payload serialised again).  The first request is issued with
    [redirect: 'manual']; the follow-up request gives no [redirect]
    option, so a redirect that answers it is followed by the transport,
    not intercepted.  The handler itself follows nothing further: what
    the transport delivers for the follow-up request is the final
    response - a failure is relayed, a network error gives 500 - and the
    upload handler issues nothing after it but, possibly, the metadata
    update; the posts handler issues nothing at all. *)
Theorem redirect_followed_once :
  (forall (w : World) (s u p img : string) (title : JsStr)
          (r0 r1 : Response) (loc : string),
      s <> "" -> u <> "" -> p <> "" ->
      startsWith img "http://" || startsWith img "https://" = true ->
      let req := Media.mkReq (Some s) (Some u) (Some p) (Some img) title in
      let base := replace_trailing_slash s in
      let auth := getWpAuthHeader u p in
      let image := Media.image_request (Some img) in
      let upload :=
        Media.upload_request (base ++ "/wp-json/wp/v2/media") auth
          (image_form w 0 (body r0) title) in
      let follow_up :=
        Media.redirected_request loc auth
          (image_form w 1 (body r0) title) in
      w_fetch w [] image = Resolved r0 ->
      ok r0 = true ->
      w_fetch w [image] upload = Resolved r1 ->
      is_redirect_status (status r1) = true ->
      location r1 = Some loc ->
      loc <> "" ->
      exists rest result,
        serve w (Media.handler req)
        = (image :: upload :: follow_up :: rest, inr result)
        /\ req_url follow_up = loc
        /\ req_method follow_up = req_method upload
        /\ header "Authorization" (req_headers upload) = Some auth
        /\ header "Authorization" (req_headers follow_up) = Some auth
        /\ (exists fd fd',
               req_body upload = Multipart fd
               /\ req_body follow_up = Multipart fd'
               /\ fd_instance fd' <> fd_instance fd
               /\ fd_parts fd' = fd_parts fd)
        /\ req_redirect upload = Some RedirectManual
        /\ req_redirect follow_up = None
        /\ (rest = []
            \/ exists id,
                 rest = [Media.alt_text_request base auth id title])
        /\ (forall r2,
               w_fetch w [image; upload] follow_up = Resolved r2 ->
               ok r2 = false ->
               rest = []
               /\ result
                  = {| res_status := status r2;
                       res_body :=
                         JObj [("error",
                                relayed_message "Failed to upload media"
                                  r2)] |})
        /\ (forall m,
               w_fetch w [image; upload] follow_up = Rejected m ->
               rest = []
               /\ result
                  = {| res_status := 500;
                       res_body := JObj [("error", JStr m)] |}))
  /\ (forall (w : World) (s u p t c : string) (fid cid : JsValue)
             (r1 : Response) (loc : string),
         s <> "" -> u <> "" -> p <> "" -> t <> "" -> c <> "" ->
         let req := Posts.mkReq (Some s) (Some u) (Some p) (JStr t) (Some c)
                      fid cid in
         let base := replace_trailing_slash s in
         let auth := getWpAuthHeader u p in
         let payload := Posts.postData (JStr t) (Some c) fid cid in
         let post := Posts.post_request base auth payload in
         let follow_up := Posts.redirected_request loc auth payload in
         w_fetch w [] post = Resolved r1 ->
         is_redirect_status (status r1) = true ->
         location r1 = Some loc ->
         loc <> "" ->
         exists result,
           serve w (Posts.handler req) = ([post; follow_up], inr result)
           /\ req_url follow_up = loc
           /\ req_method follow_up = req_method post
           /\ header "Authorization" (req_headers post) = Some auth
           /\ header "Authorization" (req_headers follow_up) = Some auth
           /\ req_body follow_up = JsonText payload
           /\ req_body post = JsonText payload
           /\ req_redirect post = Some RedirectManual
           /\ req_redirect follow_up = None
           /\ (forall r2,
                  w_fetch w [post] follow_up = Resolved r2 ->
                  ok r2 = false ->
                  result
                  = {| res_status := status r2;
                       res_body :=
                         JObj [("error",
                                relayed_message "Failed to create post"
                                  r2)] |})
           /\ (forall m,
                  w_fetch w [post] follow_up = Rejected m ->
                  result
                  = {| res_status := 500;
                       res_body := JObj [("error", JStr m)] |})).
Proof.
  split.
  - intros w s u p img title r0 r1 loc Hs Hu Hp Himg req base auth image
      upload follow_up H0 Hok0 Hw Hred Hloc Hne.
    destruct (media_redirect_one_hop w s u p img title r0 r1 loc Hs Hu Hp
                Himg H0 Hok0 Hw Hred Hloc Hne)
      as (rest & result & Hserve & Hrest & Hfinal & Hfailed).
    exists rest, result.
    split; [exact Hserve|].
    do 4 (split; [reflexivity|]).
    split.
    { exists (image_form w 0 (body r0) title),
        (image_form w 1 (body r0) title).
      repeat split. discriminate. }
    do 2 (split; [reflexivity|]).
    split; [exact Hrest|]. split; [exact Hfinal | exact Hfailed].
  - intros w s u p t c fid cid r1 loc Hs Hu Hp Ht Hc req base auth payload
      post follow_up Hw Hred Hloc Hne.
    destruct (posts_redirect_one_hop w s u p t c fid cid r1 loc Hs Hu Hp Ht
                Hc Hw Hred Hloc Hne) as (result & Hserve & Hfinal & Hfailed).
    exists result.
    split; [exact Hserve|].
    do 8 (split; [reflexivity|]).
    split; [exact Hfinal | exact Hfailed].
Qed.

(** ** Failures relayed from the upstream *)

(** C2, as amended.  For every final upstream response of a media upload
    or of a post creation whose status is not 2xx, the proxy returns a
    failure result, never an exception, whose status is the upstream
    status and whose message is: the [message] field of the upstream body
    parsed as JSON, when that field is truthy; the fixed text of the
    operation ("Failed to upload media", "Failed to create post") when
    the body is JSON without such a field; and that text followed by the
    status code when the body is not JSON, or is the JSON [null]. *)
Theorem upstream_failure_is_relayed :
  (forall (w : World) (s u p img : string) (title : JsStr)
          (r0 : Response) (sent : list Request) (rf : Response),
      s <> "" -> u <> "" -> p <> "" ->
      startsWith img "http://" || startsWith img "https://" = true ->
      let req := Media.mkReq (Some s) (Some u) (Some p) (Some img) title in
      let base := replace_trailing_slash s in
      let auth := getWpAuthHeader u p in
      let image := Media.image_request (Some img) in
      let upload :=
        Media.upload_request (base ++ "/wp-json/wp/v2/media") auth
          (image_form w 0 (body r0) title) in
      let follow_up := fun loc =>
        Media.redirected_request loc auth
          (image_form w 1 (body r0) title) in
      w_fetch w [] image = Resolved r0 ->
      ok r0 = true ->
      final_response w [image] upload follow_up sent rf ->
      ok rf = false ->
      serve w (Media.handler req)
      = (image :: sent,
         inr {| res_status := status rf;
                res_body :=
                  JObj [("error",
                         relayed_message "Failed to upload media" rf)] |}))
  /\ (forall (w : World) (s u p t c : string) (fid cid : JsValue)
             (sent : list Request) (rf : Response),
         s <> "" -> u <> "" -> p <> "" -> t <> "" -> c <> "" ->
         let req := Posts.mkReq (Some s) (Some u) (Some p) (JStr t) (Some c)
                      fid cid in
         let base := replace_trailing_slash s in
         let auth := getWpAuthHeader u p in
         let payload := Posts.postData (JStr t) (Some c) fid cid in
         let post := Posts.post_request base auth payload in
         let follow_up := fun loc =>
           Posts.redirected_request loc auth payload in
         final_response w [] post follow_up sent rf ->
         ok rf = false ->
         serve w (Posts.handler req)
         = (sent,
            inr {| res_status := status rf;
                   res_body :=
                     JObj [("error",
                            relayed_message "Failed to create post"
                              rf)] |}))
  /\ (forall (w : World) (req : Media.Req),
         exists sent result,
           serve w (Media.handler req) = (sent, inr result))
  /\ (forall (w : World) (req : Posts.Req),
         exists sent result,
           serve w (Posts.handler req) = (sent, inr result)).
Proof.
  split; [|split; [|split; intros w req; apply run_catch_500_total]].
  - intros w s u p img title r0 sent rf Hs Hu Hp Himg req base auth image
      upload follow_up H0 Hok0 Hfinal Hok.
    unfold req.
    rewrite (media_reaches_final w s u p img title r0 sent rf Hs Hu Hp Himg
               H0 Hok0 Hfinal).
    rewrite Hok. cbn [negb]. rewrite upload_failed_run.
    rewrite app_nil_r. reflexivity.
  - intros w s u p t c fid cid sent rf Hs Hu Hp Ht Hc req base auth payload
      post follow_up Hfinal Hok.
    unfold req.
    rewrite (posts_reaches_final w s u p t c fid cid sent rf Hs Hu Hp Ht Hc
               Hfinal).
    rewrite Hok. cbn [negb]. rewrite post_failed_run.
    rewrite app_nil_r. reflexivity.
Qed.

(** ** The metadata update after an upload *)

(** C7, as amended.  After a successful media upload (a final upstream
    response with a 2xx status whose body is JSON and not [null]), the
    proxy attempts the metadata update, once, exactly when a title was
    supplied and the creation response has a truthy [id]; it attempts
    none otherwise.  Whatever the outcome of that update - it is not even
    read - the result of the operation is the success value [{id, url}]
    taken from the creation response. *)
Theorem alt_text_update_is_best_effort :
  forall (w : World) (s u p img : string) (title : JsStr)
         (r0 : Response) (sent : list Request) (rf : Response)
         (mediaItem : JsValue),
    s <> "" -> u <> "" -> p <> "" ->
    startsWith img "http://" || startsWith img "https://" = true ->
    let req := Media.mkReq (Some s) (Some u) (Some p) (Some img) title in
    let base := replace_trailing_slash s in
    let auth := getWpAuthHeader u p in
    let image := Media.image_request (Some img) in
    let upload :=
      Media.upload_request (base ++ "/wp-json/wp/v2/media") auth
        (image_form w 0 (body r0) title) in
    let follow_up := fun loc =>
      Media.redirected_request loc auth (image_form w 1 (body r0) title) in
    let id := field "id" mediaItem in
    w_fetch w [] image = Resolved r0 ->
    ok r0 = true ->
    final_response w [image] upload follow_up sent rf ->
    ok rf = true ->
    body rf = JsonBody mediaItem ->
    mediaItem <> JNull ->
    mediaItem <> JUndefined ->
    serve w (Media.handler req)
    = (image :: sent
         ++ (if str_truthy title && js_truthy id
             then [Media.alt_text_request base auth id title]
             else []),
       inr {| res_status := 200;
              res_body := JObj [("id", id);
                                ("url", field "source_url" mediaItem)] |}).
Proof.
  intros w s u p img title r0 sent rf mediaItem Hs Hu Hp Himg req base auth
    image upload follow_up id H0 Hok0 Hfinal Hok Hb Hn Hu'.
  unfold req.
  rewrite (media_reaches_final w s u p img title r0 sent rf Hs Hu Hp Himg
             H0 Hok0 Hfinal).
  rewrite Hok. cbn [negb].
  rewrite (upload_succeeded_run _ _ _ _ _ _ _ _ Hb Hn Hu').
  reflexivity.
Qed.

(** ** The payload of a post *)

Lemma postData_fields (t c : string) (fid cid : JsValue) :
  exists fields,
    Posts.postData (JStr t) (Some c) fid cid = JObj fields
    /\ lookup_field "title" fields = Some (JStr t)
    /\ lookup_field "content" fields = Some (JStr c)
    /\ lookup_field "status" fields = Some (JStr "draft")
    /\ lookup_field "featured_media" fields
       = (if js_truthy fid then Some fid else None)
    /\ lookup_field "categories" fields
       = (if js_truthy cid then Some (JArr [cid]) else None)
    /\ forall k v, In (k, v) fields -> v <> JNull /\ v <> JUndefined.
Proof.
  unfold Posts.postData.
  destruct (js_truthy fid) eqn:Hf, (js_truthy cid) eqn:Hc;
    eexists; (split; [reflexivity|]); cbn;
    repeat (split; [reflexivity|]);
    intros k v H;
    repeat (destruct H as [H|H]; [inversion H; subst; clear H|]);
    try contradiction;
    split; intros E; subst; discriminate.
Qed.

Lemma AllFetch_bind_liftR {A B} (P : Request -> Prop) (r : Result A)
  (f : A -> Prog B) :
  (forall x, r = inr x -> AllFetch P (f x)) ->
  AllFetch P (bind (liftR r) f).
Proof.
  intros H. destruct r as [e|x]; cbn; [exact I | now apply H].
Qed.

(** C8.  A post-creation request that passes validation is sent upstream
    as a payload, and every request the posts handler sends upstream
    carries one and the same payload: [status] is "draft";
    [featured_media] is there, with the value of [featuredImageId],
    exactly when that value is truthy; [categories] is there, as the
    one-element list of [categoryId], exactly when that value is truthy;
    and no field of the payload is [null] or [undefined]: what is absent
    is left out. *)
Theorem post_payload_is_a_draft :
  (forall (w : World) (req : Posts.Req),
      Forall (fun rq =>
                exists fields,
                  req_body rq = JsonText (JObj fields)
                  /\ lookup_field "status" fields = Some (JStr "draft")
                  /\ lookup_field "featured_media" fields
                     = (if js_truthy (Posts.featuredImageId req)
                        then Some (Posts.featuredImageId req) else None)
                  /\ lookup_field "categories" fields
                     = (if js_truthy (Posts.categoryId req)
                        then Some (JArr [Posts.categoryId req]) else None)
                  /\ forall k v,
                       In (k, v) fields -> v <> JNull /\ v <> JUndefined)
        (fst (serve w (Posts.handler req))))
  /\ (forall (w : World) (s u p t c : string) (fid cid : JsValue),
         s <> "" -> u <> "" -> p <> "" -> t <> "" -> c <> "" ->
         let req := Posts.mkReq (Some s) (Some u) (Some p) (JStr t) (Some c)
                      fid cid in
         exists fields rest result,
           serve w (Posts.handler req)
           = (Posts.post_request (replace_trailing_slash s)
                (getWpAuthHeader u p) (JObj fields) :: rest,
              inr result)
           /\ lookup_field "title" fields = Some (JStr t)
           /\ lookup_field "content" fields = Some (JStr c)
           /\ lookup_field "status" fields = Some (JStr "draft")
           /\ lookup_field "featured_media" fields
              = (if js_truthy fid then Some fid else None)
           /\ lookup_field "categories" fields
              = (if js_truthy cid then Some (JArr [cid]) else None)).
Proof.
  split.
  - intros w [siteUrl username appPassword title content fid cid].
    apply AllFetch_run.
    unfold Posts.handler, Posts.post_failed, Posts.post_succeeded, res_json.
    cbn [Posts.siteUrl Posts.username Posts.appPassword Posts.title
         Posts.content Posts.featuredImageId Posts.categoryId].
    assert (Hpayload : forall t c,
               exists fields,
                 JsonText (Posts.postData (JStr t) (Some c) fid cid)
                 = JsonText (JObj fields)
                 /\ lookup_field "status" fields = Some (JStr "draft")
                 /\ lookup_field "featured_media" fields
                    = (if js_truthy fid then Some fid else None)
                 /\ lookup_field "categories" fields
                    = (if js_truthy cid then Some (JArr [cid]) else None)
                 /\ forall k v,
                      In (k, v) fields -> v <> JNull /\ v <> JUndefined).
    { intros t c.
      destruct (postData_fields t c fid cid)
        as (fields & E & _ & _ & H1 & H2 & H3 & H4).
      exists fields. rewrite E. auto. }
    apply AllFetch_try_catch; [|intros e; exact I].
    apply AllFetch_bind_liftR. intros logged Hlog.
    destruct title as [| |b|z|t|items|fields]; try discriminate Hlog;
      destruct content as [c|];
      destruct (str_truthy siteUrl), (str_truthy username),
        (str_truthy appPassword);
      cbn [negb orb str_truthy js_truthy];
      rewrite ?orb_true_r; cbn [orb];
      try exact I;
      all_fetch;
      apply (Hpayload t c).
  - intros w s u p t c fid cid Hs Hu Hp Ht Hc req.
    destruct (postData_fields t c fid cid)
      as (fields & E & H1 & H2 & H3 & H4 & H5 & _).
    unfold req. posts_start. rewrite E.
    finish_catch_500. exists fields. eauto 10.
Qed.

(** ** The filename of an upload *)


Lemma length_substring_0 n s :
  String.length (substring 0 n s) = Nat.min n (String.length s).
Proof.
  revert s. induction n as [|n IH]; intros [|c s]; cbn; try reflexivity.
  now rewrite IH.
Qed.






(* ================================================================= *)
(** * Instances and counterexamples *)

(** C9 needs no instance; here is one all the same. *)
Example editor_header :
  getWpAuthHeader "editor" "abcd efgh" = "Basic ZWRpdG9yOmFiY2QgZWZnaA==".
Proof. reflexivity. Qed.

(** Small letters of accented capitals, as [toLowerCase] gives them:
    "ÉCOLE" and "école" in code units. *)
Example accented_capitals_are_folded :
  toLowerCase (String (ascii_of_nat 201) "COLE")
  = String (ascii_of_nat 233) "cole"
  /\ named_like (String (ascii_of_nat 233) "cole")
       (JObj [("id", JNum 4);
              ("name", JStr (String (ascii_of_nat 201) "COLE"))])
     = true.
Proof. split; reflexivity. Qed.



(** Instance of C10. *)
Lemma nameless_request_still_searches :
  exists rest result,
    serve travel_world (Categories.handler (travel_request None))
    = (Categories.search_request "https://blog.example.org"
         (getWpAuthHeader "editor" "abcd efgh") None :: rest,
       inr result)
    /\ req_url (Categories.search_request "https://blog.example.org"
                  (getWpAuthHeader "editor" "abcd efgh") None)
       = "https://blog.example.org/wp-json/wp/v2/categories?search=undefined".
Proof.
  destruct (categories_missing_name_still_searches travel_world
              "https://blog.example.org/" "editor" "abcd efgh"
              ltac:(discriminate) ltac:(discriminate) ltac:(discriminate))
    as (Hurl & rest & result & Hserve).
  exists rest, result. split; [exact Hserve | reflexivity].
Defined.

(** Counterexample to C5 as stated: when the search call fails at the
    network level the resolver does not go on to create the category; it
    answers 500 and the creation request is never issued. *)
Lemma search_network_error_is_fatal :
  w_fetch offline_world []
    (Categories.search_request "https://blog.example.org"
       (getWpAuthHeader "editor" "abcd efgh") (Some "travel"))
  = Rejected "getaddrinfo ENOTFOUND blog.example.org"
  /\ serve offline_world
       (Categories.handler (travel_request (Some "travel")))
     = ([Categories.search_request "https://blog.example.org"
           (getWpAuthHeader "editor" "abcd efgh") (Some "travel")],
        inr {| res_status := 500;
               res_body :=
                 JObj [("error",
                        JStr "getaddrinfo ENOTFOUND blog.example.org")] |})
  /\ ~ In (Categories.create_request "https://blog.example.org"
             (getWpAuthHeader "editor" "abcd efgh") (Some "travel"))
         (fst (serve offline_world
                 (Categories.handler (travel_request (Some "travel"))))).
Proof.
  split; [reflexivity|]. split; [reflexivity|].
  vm_compute. intros [H|[]]. discriminate H.
Qed.

(** Instance of C5 as amended: a search answered 503 leads to the
    creation of the category. *)
Lemma search_503_creates_category :
  serve search_unavailable_world
    (Categories.handler (travel_request (Some "travel")))
  = ([Categories.search_request "https://blog.example.org"
        (getWpAuthHeader "editor" "abcd efgh") (Some "travel");
      Categories.create_request "https://blog.example.org"
        (getWpAuthHeader "editor" "abcd efgh") (Some "travel")],
     inr {| res_status := 200;
            res_body := JObj [("id", JNum 12); ("name", JStr "travel")] |}).
Proof.
  destruct (proj1 (search_failure_falls_through_to_create
                     search_unavailable_world
                     "https://blog.example.org/" "editor" "abcd efgh"
                     (Some "travel")
                     ltac:(discriminate) ltac:(discriminate)
                     ltac:(discriminate))
              {| status := 503; location := None;
                 body := RawBody "Service Unavailable"
                           "invalid json response body" |}
              eq_refl eq_refl)
    as [(result & Hserve) _].
  assert (Hresult := Hserve). vm_compute in Hresult.
  inversion Hresult as [E]. clear Hresult.
  unfold travel_request. rewrite Hserve, <- E. reflexivity.
Defined.

(** Counterexample to C1 as stated: the request that follows the
    redirect is issued with no [redirect] option, that is, with the
    transport following redirects by itself: a redirect that answers it
    is followed, not taken as the final response. *)
Lemma follow_up_leaves_redirects_to_the_transport :
  exists follow_up,
    nth_error (fst (serve redirecting_world (Media.handler sunset_request)))
      2 = Some follow_up
    /\ req_url follow_up = "https://www.example.org/wp-json/wp/v2/media"
    /\ req_method follow_up = POST
    /\ req_redirect follow_up = None
    /\ req_redirect follow_up <> Some RedirectManual.
Proof.
  eexists. split; [reflexivity|].
  do 3 (split; [reflexivity|]). discriminate.
Qed.

(** Instance of C1 as amended: the upload is redirected once; the
    request that follows it creates the media item, and the metadata
    update comes last. *)
Lemma sunset_upload_redirected_once :
  let auth := getWpAuthHeader "editor" "abcd efgh" in
  let image :=
    Media.image_request (Some "https://images.example.org/sunset.png") in
  let upload :=
    Media.upload_request "https://blog.example.org/wp-json/wp/v2/media"
      auth
      (image_form redirecting_world 0 (body sunset_image)
         (Some "Sunset at sea")) in
  let follow_up :=
    Media.redirected_request "https://www.example.org/wp-json/wp/v2/media"
      auth
      (image_form redirecting_world 1 (body sunset_image)
         (Some "Sunset at sea")) in
  exists id result,
    serve redirecting_world (Media.handler sunset_request)
    = ([image; upload; follow_up;
        Media.alt_text_request "https://blog.example.org" auth id
          (Some "Sunset at sea")],
       inr result)
    /\ req_redirect upload = Some RedirectManual
    /\ req_redirect follow_up = None
    /\ header "Authorization" (req_headers follow_up) = Some auth.
Proof.
  intros auth image upload follow_up.
  destruct (proj1 redirect_followed_once redirecting_world
              "https://blog.example.org/" "editor" "abcd efgh"
              "https://images.example.org/sunset.png"
              (Some "Sunset at sea") sunset_image
              (moved "https://www.example.org/wp-json/wp/v2/media")
              "https://www.example.org/wp-json/wp/v2/media"
              ltac:(discriminate) ltac:(discriminate) ltac:(discriminate)
              eq_refl eq_refl eq_refl eq_refl eq_refl eq_refl
              ltac:(discriminate))
    as (rest & result & Hserve & _ & _ & _ & Hauth & _ & Hmanual & Hfollow
        & Hrest & _).
  destruct Hrest as [Hrest | [id Hrest]]; subst rest.
  - exfalso. vm_compute in Hserve. discriminate Hserve.
  - exists id, result. split; [exact Hserve|].
    split; [exact Hmanual|]. split; [exact Hfollow | exact Hauth].
Defined.

(** Counterexample to C2 as stated: the upstream refuses the post with a
    JSON body that has no [message].  Parsing succeeds, and the message
    of the failure is the fixed text: neither a [message] field of the
    body nor the text templated with the status code. *)
Lemma failure_without_message_field :
  serve forbidden_world (Posts.handler hello_request)
  = ([Posts.post_request "https://blog.example.org"
        (getWpAuthHeader "editor" "abcd efgh")
        (Posts.postData (JStr "Hello") (Some "<p>World</p>")
           (JNum 41) JUndefined)],
     inr {| res_status := 403;
            res_body := JObj [("error", JStr "Failed to create post")] |})
  /\ JSON_parse (body forbidden)
     = inr (JObj [("code", JStr "rest_forbidden")])
  /\ get_prop (JObj [("code", JStr "rest_forbidden")]) "message"
     = inr JUndefined
  /\ JStr "Failed to create post" <> JUndefined
  /\ "Failed to create post"
     <> "Failed to create post: " ++ string_of_Z (status forbidden).
Proof.
  repeat split; try reflexivity; discriminate.
Qed.

(** Instance of C2 as amended, on the same refusal. *)
Lemma forbidden_post_is_relayed :
  final_response forbidden_world []
    (Posts.post_request "https://blog.example.org"
       (getWpAuthHeader "editor" "abcd efgh")
       (Posts.postData (JStr "Hello") (Some "<p>World</p>")
          (JNum 41) JUndefined))
    (fun loc =>
       Posts.redirected_request loc (getWpAuthHeader "editor" "abcd efgh")
         (Posts.postData (JStr "Hello") (Some "<p>World</p>")
            (JNum 41) JUndefined))
    [Posts.post_request "https://blog.example.org"
       (getWpAuthHeader "editor" "abcd efgh")
       (Posts.postData (JStr "Hello") (Some "<p>World</p>")
          (JNum 41) JUndefined)]
    forbidden
  /\ serve forbidden_world (Posts.handler hello_request)
     = ([Posts.post_request "https://blog.example.org"
           (getWpAuthHeader "editor" "abcd efgh")
           (Posts.postData (JStr "Hello") (Some "<p>World</p>")
              (JNum 41) JUndefined)],
        inr {| res_status := 403;
               res_body :=
                 JObj [("error",
                        relayed_message "Failed to create post"
                          forbidden)] |}).
Proof.
  assert (Hfinal :
            final_response forbidden_world []
              (Posts.post_request "https://blog.example.org"
                 (getWpAuthHeader "editor" "abcd efgh")
                 (Posts.postData (JStr "Hello") (Some "<p>World</p>")
                    (JNum 41) JUndefined))
              (fun loc =>
                 Posts.redirected_request loc
                   (getWpAuthHeader "editor" "abcd efgh")
                   (Posts.postData (JStr "Hello") (Some "<p>World</p>")
                      (JNum 41) JUndefined))
              [Posts.post_request "https://blog.example.org"
                 (getWpAuthHeader "editor" "abcd efgh")
                 (Posts.postData (JStr "Hello") (Some "<p>World</p>")
                    (JNum 41) JUndefined)]
              forbidden).
  { apply final_first; reflexivity. }
  split; [exact Hfinal|].
  exact (proj1 (proj2 upstream_failure_is_relayed) forbidden_world
           "https://blog.example.org" "editor" "abcd efgh" "Hello"
           "<p>World</p>" (JNum 41) JUndefined _ forbidden
           ltac:(discriminate) ltac:(discriminate) ltac:(discriminate)
           ltac:(discriminate) ltac:(discriminate) Hfinal eq_refl).
Defined.

(** Counterexample to C3 as stated: the search request of the category
    resolver is issued with no [redirect] option, that is, with the
    transport following redirects by itself. *)
Lemma category_search_follows_redirects :
  exists rq,
    In rq (fst (serve travel_world
                  (Categories.handler (travel_request (Some "travel")))))
    /\ rq = Categories.search_request "https://blog.example.org"
              (getWpAuthHeader "editor" "abcd efgh") (Some "travel")
    /\ req_redirect rq = None
    /\ req_redirect rq <> Some RedirectManual.
Proof.
  eexists. split; [left; reflexivity|].
  split; [reflexivity|]. split; [reflexivity | discriminate].
Qed.



(** Counterexample to C7 as stated: a title is supplied and the upload
    succeeds, but the media item has no [id]; no metadata update is
    attempted. *)
Lemma no_update_without_id :
  Media.title sunset_request = Some "Sunset at sea"
  /\ ok media_without_id = true
  /\ exists upload,
       serve no_id_world (Media.handler sunset_request)
       = ([Media.image_request
             (Some "https://images.example.org/sunset.png");
           upload],
          inr {| res_status := 200;
                 res_body :=
                   JObj [("id", JUndefined);
                         ("url",
                          JStr "https://blog.example.org/sunset.jpg")] |})
       /\ req_url upload = "https://blog.example.org/wp-json/wp/v2/media"
       /\ exists fd, req_body upload = Multipart fd.
Proof.
  split; [reflexivity|]. split; [reflexivity|].
  eexists. split; [reflexivity|]. split; [reflexivity|].
  eexists. reflexivity.
Qed.

(** Instance of C7 as amended: the metadata update is attempted once,
    cannot connect, and the upload still succeeds. *)
Lemma failed_update_is_swallowed :
  let image :=
    Media.image_request (Some "https://images.example.org/sunset.png") in
  let upload :=
    Media.upload_request "https://blog.example.org/wp-json/wp/v2/media"
      (getWpAuthHeader "editor" "abcd efgh")
      (image_form patch_fails_world 0 (body sunset_image)
         (Some "Sunset at sea")) in
  let update :=
    Media.alt_text_request "https://blog.example.org"
      (getWpAuthHeader "editor" "abcd efgh") (JNum 41)
      (Some "Sunset at sea") in
  w_fetch patch_fails_world [image; upload] update
  = Rejected "connect ECONNREFUSED"
  /\ serve patch_fails_world (Media.handler sunset_request)
     = ([image; upload; update],
        inr {| res_status := 200;
               res_body :=
                 JObj [("id", JNum 41);
                       ("url",
                        JStr "https://blog.example.org/sunset.jpg")] |}).
Proof.
  intros image upload update. split; [reflexivity|].
  assert (Hfinal :
            final_response patch_fails_world [image] upload
              (fun loc =>
                 Media.redirected_request loc
                   (getWpAuthHeader "editor" "abcd efgh")
                   (image_form patch_fails_world 1 (body sunset_image)
                      (Some "Sunset at sea")))
              [upload] created_media).
  { apply final_first; reflexivity. }
  exact (alt_text_update_is_best_effort patch_fails_world
           "https://blog.example.org/" "editor" "abcd efgh"
           "https://images.example.org/sunset.png" (Some "Sunset at sea")
           sunset_image [upload] created_media _
           ltac:(discriminate) ltac:(discriminate) ltac:(discriminate)
           eq_refl eq_refl eq_refl Hfinal eq_refl eq_refl
           ltac:(discriminate) ltac:(discriminate)).
Defined.

(* ================================================================= *)
(** * Further properties of the handlers *)

(** ** Validation *)

Lemma str_truthy_inv v :
  str_truthy v = true -> exists s, v = Some s /\ s <> "".
Proof.
  destruct v as [s|]; [|discriminate].
  destruct s; [discriminate|]. intros _. eexists. split; [reflexivity|].
  discriminate.
Qed.

(** X1.  The categories handler turns a request down, with status 400
    and without any upstream request, exactly when [siteUrl], [username]
    or [appPassword] is missing or empty; otherwise it issues an upstream
    request. *)
Theorem categories_validation :
  forall (w : World) (req : Categories.Req),
    let valid :=
      str_truthy (Categories.siteUrl req)
      && str_truthy (Categories.username req)
      && str_truthy (Categories.appPassword req) in
    (valid = false ->
     serve w (Categories.handler req)
     = ([], inr {| res_status := 400;
                   res_body :=
                     JObj [("error",
                            JStr "Missing WordPress credentials")] |}))
    /\ (valid = true -> fst (serve w (Categories.handler req)) <> []).
Proof.
  intros w [siteUrl username appPassword categoryName] valid. subst valid.
  cbn [Categories.siteUrl Categories.username Categories.appPassword].
  split.
  - intros H. unfold serve, Categories.handler.
    cbn [Categories.siteUrl Categories.username Categories.appPassword
         Categories.categoryName].
    destruct (str_truthy siteUrl), (str_truthy username),
      (str_truthy appPassword); try discriminate H; reflexivity.
  - intros H.
    apply andb_prop in H as [H H3]. apply andb_prop in H as [H1 H2].
    apply str_truthy_inv in H1 as (s & -> & Hs).
    apply str_truthy_inv in H2 as (u & -> & Hu).
    apply str_truthy_inv in H3 as (p & -> & Hp).
    categories_start Hs Hu Hp.
    destruct (run w _ 0 _). discriminate.
Qed.

(** X2.  The media handler turns a request down with status 400 and
    without any upstream request - not even the fetch of the image - when
    a required field is missing or empty, the message naming the image URL
    or saying MISSING, and when the image URL starts neither with
    [http://] nor with [https://], the message naming the URL. *)
Theorem media_validation :
  forall (w : World) (req : Media.Req),
    (str_truthy (Media.siteUrl req) && str_truthy (Media.username req)
     && str_truthy (Media.appPassword req)
     && str_truthy (Media.imageUrl req) = false ->
     serve w (Media.handler req)
     = ([], inr {| res_status := 400;
                   res_body :=
                     JObj [("error",
                            JStr ("Missing required fields. imageUrl: "
                                    ++ (if str_truthy (Media.imageUrl req)
                                        then str_ToString
                                               (Media.imageUrl req)
                                        else "MISSING")))] |}))
    /\ (forall img,
           str_truthy (Media.siteUrl req) && str_truthy (Media.username req)
           && str_truthy (Media.appPassword req) = true ->
           Media.imageUrl req = Some img ->
           img <> "" ->
           startsWith img "http://" || startsWith img "https://" = false ->
           serve w (Media.handler req)
           = ([], inr {| res_status := 400;
                         res_body :=
                           JObj [("error",
                                  JStr ("Invalid image URL format: "
                                          ++ img))] |})).
Proof.
  intros w [siteUrl username appPassword imageUrl title].
  cbn [Media.siteUrl Media.username Media.appPassword Media.imageUrl].
  split.
  - intros H. unfold serve, Media.handler.
    cbn [Media.siteUrl Media.username Media.appPassword Media.imageUrl
         Media.title].
    destruct (str_truthy siteUrl), (str_truthy username),
      (str_truthy appPassword), (str_truthy imageUrl);
      try discriminate H; reflexivity.
  - intros img H -> Himg Hscheme.
    apply andb_prop in H as [H H3]. apply andb_prop in H as [H1 H2].
    apply orb_false_elim in Hscheme as [Hhttp Hhttps].
    unfold serve, Media.handler.
    cbn [Media.siteUrl Media.username Media.appPassword Media.imageUrl
         Media.title].
    rewrite H1, H2, H3, (str_truthy_Some _ Himg). cbn.
    rewrite Hhttp. cbn. rewrite Hhttps. reflexivity.
Qed.

(** X3.  When the title is a string or is not there, the posts handler
    turns a request down with status 400 and without any upstream request
    as soon as [siteUrl], [username], [appPassword], [title] or [content]
    is missing or empty.  A title of any other type - a number, a
    boolean, an array, an object - never reaches validation: the first
    log line calls [title?.substring], which throws, and the answer is
    status 500, without any upstream request, whatever the other fields
    are. *)
Theorem posts_validation :
  forall (w : World) (req : Posts.Req),
    (is_string_or_absent (Posts.title req) = true ->
     str_truthy (Posts.siteUrl req) && str_truthy (Posts.username req)
     && str_truthy (Posts.appPassword req) && js_truthy (Posts.title req)
     && str_truthy (Posts.content req) = false ->
     serve w (Posts.handler req)
     = ([], inr {| res_status := 400;
                   res_body :=
                     JObj [("error", JStr "Missing required fields")] |}))
    /\ (is_string_or_absent (Posts.title req) = false ->
        serve w (Posts.handler req)
        = ([], inr {| res_status := 500;
                      res_body :=
                        JObj [("error",
                               JStr "title?.substring is not a function")]
                   |})).
Proof.
  intros w [siteUrl username appPassword title content fid cid].
  cbn [Posts.siteUrl Posts.username Posts.appPassword Posts.title
       Posts.content].
  split.
  - intros Htitle H.
    unfold serve, Posts.handler.
    cbn [Posts.siteUrl Posts.username Posts.appPassword Posts.title
         Posts.content Posts.featuredImageId Posts.categoryId].
    destruct title as [| |b|z|t|items|fields]; try discriminate Htitle;
      cbn [Posts.title_for_log liftR bind];
      destruct (str_truthy siteUrl), (str_truthy username),
        (str_truthy appPassword), (str_truthy content);
      try destruct (js_truthy (JStr t));
      try discriminate H; reflexivity.
  - intros Htitle.
    destruct title as [| |b|z|t|items|fields]; try discriminate Htitle;
      reflexivity.
Qed.

(** ** The fetch of the source image *)

(** X4.  When the source image cannot be had, nothing is uploaded: an
    answer to the image fetch that is not 2xx gives status 400 with a
    message that carries the status of the image host, and a fetch that
    fails at the network level gives status 500 with the message of the
    error.  In both cases the image fetch is the only request issued. *)
Theorem image_fetch_failure :
  forall (w : World) (s u p img : string) (title : JsStr),
    s <> "" -> u <> "" -> p <> "" ->
    startsWith img "http://" || startsWith img "https://" = true ->
    let req := Media.mkReq (Some s) (Some u) (Some p) (Some img) title in
    let image := Media.image_request (Some img) in
    (forall r0,
        w_fetch w [] image = Resolved r0 ->
        ok r0 = false ->
        serve w (Media.handler req)
        = ([image],
           inr {| res_status := 400;
                  res_body :=
                    JObj [("error",
                           JStr ("Failed to fetch image from URL: "
                                   ++ string_of_Z (status r0)))] |}))
    /\ (forall m,
           w_fetch w [] image = Rejected m ->
           serve w (Media.handler req)
           = ([image],
              inr {| res_status := 500;
                     res_body := JObj [("error", JStr m)] |})).
Proof.
  intros w s u p img title Hs Hu Hp Himg req image. split.
  - intros r0 H0 Hok. unfold req.
    media_start Himg; fold image; rewrite H0; cbn; rewrite Hok;
      reflexivity.
  - intros m H0. unfold req.
    media_start Himg; fold image; rewrite H0; reflexivity.
Qed.

(** ** Credentials *)

Ltac all_fetch_base_step :=
  lazymatch goal with
  | |- AllFetch _ (bind (liftR (str_replace_trailing_slash ?v)) _) =>
      apply AllFetch_bind_liftR;
      let base := fresh "base" in
      let Hbase := fresh "Hbase" in
      intros base Hbase;
      destruct v; inversion Hbase; subst base
  | _ => all_fetch_step
  end.

Ltac credentials_goal :=
  cbv beta;
  first
    [ left; split; reflexivity
    | split; [reflexivity|];
      first [ left; eexists _, _; split; reflexivity
            | right; eexists _, _; reflexivity
            | eexists _, _; split; reflexivity ]
    | right; split; [reflexivity|];
      first [ left; eexists _, _; split; reflexivity
            | right; eexists _, _; reflexivity ] ].

(** X5.  The fetch of the source image carries no header: the
    credentials never go to the image host.  Every other request of the
    media handler, and every request of the categories and posts
    handlers, carries the Authorization header built from [username] and
    [appPassword].  These requests are addressed to URLs that begin with
    the base URL of the site, with one exception: the request that
    follows a redirect carries the header to the URL that the Location
    header names, whatever that URL is - and when an upload is
    redirected, that request is indeed sent, after the image fetch
    without credentials and the upload with them. *)
Theorem credentials_and_their_destinations :
  (forall (w : World) (req : Categories.Req),
      Forall (fun rq =>
                header "Authorization" (req_headers rq)
                = Some (getWpAuthHeader
                          (str_ToString (Categories.username req))
                          (str_ToString (Categories.appPassword req)))
                /\ exists s path,
                     Categories.siteUrl req = Some s
                     /\ req_url rq = replace_trailing_slash s ++ path)
        (fst (serve w (Categories.handler req))))
  /\ (forall (w : World) (req : Posts.Req),
         let auth :=
           getWpAuthHeader (str_ToString (Posts.username req))
             (str_ToString (Posts.appPassword req)) in
         Forall (fun rq =>
                   header "Authorization" (req_headers rq) = Some auth
                   /\ ((exists s path,
                           Posts.siteUrl req = Some s
                           /\ req_url rq = replace_trailing_slash s ++ path)
                       \/ (exists loc payload,
                              rq = Posts.redirected_request loc auth
                                     payload)))
           (fst (serve w (Posts.handler req))))
  /\ (forall (w : World) (req : Media.Req),
         let auth :=
           getWpAuthHeader (str_ToString (Media.username req))
             (str_ToString (Media.appPassword req)) in
         Forall (fun rq =>
                   (rq = Media.image_request (Media.imageUrl req)
                    /\ req_headers rq = [])
                   \/ (header "Authorization" (req_headers rq) = Some auth
                       /\ ((exists s path,
                               Media.siteUrl req = Some s
                               /\ req_url rq
                                  = replace_trailing_slash s ++ path)
                           \/ (exists loc fd,
                                  rq = Media.redirected_request loc auth
                                         fd))))
           (fst (serve w (Media.handler req))))
  /\ (forall (w : World) (s u p img : string) (title : JsStr)
             (r0 r1 : Response) (loc : string),
         s <> "" -> u <> "" -> p <> "" ->
         startsWith img "http://" || startsWith img "https://" = true ->
         let req :=
           Media.mkReq (Some s) (Some u) (Some p) (Some img) title in
         let auth := getWpAuthHeader u p in
         let image := Media.image_request (Some img) in
         let upload :=
           Media.upload_request
             (replace_trailing_slash s ++ "/wp-json/wp/v2/media") auth
             (image_form w 0 (body r0) title) in
         w_fetch w [] image = Resolved r0 ->
         ok r0 = true ->
         w_fetch w [image] upload = Resolved r1 ->
         is_redirect_status (status r1) = true ->
         location r1 = Some loc ->
         loc <> "" ->
         exists follow_up rest result,
           serve w (Media.handler req)
           = (image :: upload :: follow_up :: rest, inr result)
           /\ req_url image = img
           /\ req_headers image = []
           /\ header "Authorization" (req_headers upload) = Some auth
           /\ req_url follow_up = loc
           /\ header "Authorization" (req_headers follow_up) = Some auth).
Proof.
  split; [|split; [|split]].
  4:{ intros w s u p img title r0 r1 loc Hs Hu Hp Himg req auth image
        upload H0 Hok0 Hw Hred Hloc Hne.
      destruct (media_redirect_one_hop w s u p img title r0 r1 loc Hs Hu Hp
                  Himg H0 Hok0 Hw Hred Hloc Hne)
        as (rest & result & Hserve & _).
      eexists _, rest, result. split; [exact Hserve|].
      repeat split. }
  - intros w [siteUrl username appPassword categoryName].
    apply AllFetch_run.
    unfold Categories.handler, Categories.create_category, res_json.
    cbn [Categories.siteUrl Categories.username Categories.appPassword
         Categories.categoryName].
    repeat all_fetch_base_step; credentials_goal.
  - intros w [siteUrl username appPassword title content fid cid] auth.
    subst auth. apply AllFetch_run.
    unfold Posts.handler, Posts.post_failed, Posts.post_succeeded, res_json.
    cbn [Posts.siteUrl Posts.username Posts.appPassword Posts.title
         Posts.content Posts.featuredImageId Posts.categoryId].
    repeat all_fetch_base_step; credentials_goal.
  - intros w [siteUrl username appPassword imageUrl title] auth.
    subst auth. apply AllFetch_run.
    unfold Media.handler, Media.upload_failed, Media.upload_succeeded,
      Media.createFormData, res_json.
    cbn [Media.siteUrl Media.username Media.appPassword Media.imageUrl
         Media.title].
    repeat all_fetch_base_step; credentials_goal.
Qed.

(** ** A post that is created *)

Lemma post_succeeded_run w hist nfd base r post :
  body r = JsonBody post -> post <> JNull -> post <> JUndefined ->
  run w hist nfd (try_catch (Posts.post_succeeded base r) catch_500)
  = ([], inr {| res_status := 200;
                res_body :=
                  JObj [("id", field "id" post);
                        ("link", field "link" post);
                        ("adminLink",
                         JStr (base ++ "/wp-admin/post.php?post="
                                 ++ ToString (field "id" post)
                                 ++ "&action=edit"))] |}).
Proof.
  intros Hb H1 H2. unfold Posts.post_succeeded, json. rewrite Hb. cbn.
  rewrite !(get_prop_field post) by assumption. reflexivity.
Qed.

(** X6.  When the final upstream response of a post creation is a 2xx
    with a JSON body, the proxy answers 200 with the [id] and the [link]
    of the created post and an [adminLink] composed of the site URL
    without its trailing slash, the edit path of the admin pages and the
    id of the post. *)
Theorem post_created_admin_link :
  forall (w : World) (s u p t c : string) (fid cid : JsValue)
         (sent : list Request) (rf : Response) (post : JsValue),
    s <> "" -> u <> "" -> p <> "" -> t <> "" -> c <> "" ->
    let req := Posts.mkReq (Some s) (Some u) (Some p) (JStr t) (Some c)
                 fid cid in
    let base := replace_trailing_slash s in
    let auth := getWpAuthHeader u p in
    let payload := Posts.postData (JStr t) (Some c) fid cid in
    final_response w [] (Posts.post_request base auth payload)
      (fun loc => Posts.redirected_request loc auth payload) sent rf ->
    ok rf = true ->
    body rf = JsonBody post ->
    post <> JNull -> post <> JUndefined ->
    serve w (Posts.handler req)
    = (sent,
       inr {| res_status := 200;
              res_body :=
                JObj [("id", field "id" post);
                      ("link", field "link" post);
                      ("adminLink",
                       JStr (base ++ "/wp-admin/post.php?post="
                               ++ ToString (field "id" post)
                               ++ "&action=edit"))] |}).
Proof.
  intros w s u p t c fid cid sent rf post Hs Hu Hp Ht Hc req base auth
    payload Hfinal Hok Hb Hn Hu'.
  unfold req.
  rewrite (posts_reaches_final w s u p t c fid cid sent rf Hs Hu Hp Ht Hc
             Hfinal).
  rewrite Hok. cbn [negb].
  rewrite (post_succeeded_run _ _ _ _ _ _ Hb Hn Hu').
  rewrite app_nil_r. reflexivity.
Qed.

(** ** A category that is created *)




(** X8.  A request without [categoryName] is not turned down by
    validation, but it fails as soon as the search returns a category to
    compare it with: the answer is status 500, and no category is
    created. *)
Theorem missing_name_fails_on_first_category :
  forall (w : World) (s u p : string) (r : Response) (cat : JsValue)
         (cats : list JsValue),
    s <> "" -> u <> "" -> p <> "" ->
    let req := Categories.mkReq (Some s) (Some u) (Some p) None in
    let search :=
      Categories.search_request (replace_trailing_slash s)
        (getWpAuthHeader u p) None in
    w_fetch w [] search = Resolved r ->
    ok r = true ->
    body r = JsonBody (JArr (cat :: cats)) ->
    exists message,
      serve w (Categories.handler req)
      = ([search],
         inr {| res_status := 500;
                res_body := JObj [("error", JStr message)] |}).
Proof.
  intros w s u p r cat cats Hs Hu Hp req search Hw Hok Hb.
  assert (Hthrow : exists e,
             Categories.name_matches None cat = inl e).
  { unfold Categories.name_matches.
    destruct (get_prop cat "name") as [e|name]; cbn; [eauto|].
    destruct (js_toLowerCase name) as [e|l]; cbn; eauto. }
  destruct Hthrow as [e He].
  exists (error_message e).
  unfold req. categories_start Hs Hu Hp. fold search.
  rewrite Hw. cbn. rewrite Hok. unfold json. rewrite Hb. cbn.
  rewrite He. reflexivity.
Qed.

(** ** The media handler of [src/server.js] *)

Arguments ServerJs.image_request : simpl never.
Arguments ServerJs.upload_request : simpl never.

Ltac earlier_media_start Himg :=
  unfold serve, ServerJs.media_handler;
  cbn [Media.siteUrl Media.username Media.appPassword Media.imageUrl
       Media.title];
  rewrite !str_truthy_Some
    by (assumption || exact (startsWith_nonempty _ Himg));
  cbn;
  let E := fresh "E" in
  destruct (startsWith _ "http://") eqn:E; cbn;
  [| cbn in Himg; rewrite Himg; cbn].

(** X9.  In the earlier variant of the media handler the metadata update
    is not protected: when the upload has succeeded and the update that
    follows it fails at the network level, the answer is status 500 with
    the message of that error, although the media item exists upstream. *)
Theorem earlier_variant_update_failure_is_fatal :
  forall (w : World) (s u p img t : string) (r0 ru : Response)
         (mediaItem : JsValue) (m : string),
    s <> "" -> u <> "" -> p <> "" -> t <> "" ->
    startsWith img "http://" || startsWith img "https://" = true ->
    let req :=
      Media.mkReq (Some s) (Some u) (Some p) (Some img) (Some t) in
    let base := replace_trailing_slash s in
    let auth := getWpAuthHeader u p in
    let image := ServerJs.image_request (Some img) in
    let upload :=
      ServerJs.upload_request base auth
        (image_form w 0 (body r0) (Some t)) in
    let update :=
      Media.alt_text_request base auth (field "id" mediaItem) (Some t) in
    w_fetch w [] image = Resolved r0 ->
    ok r0 = true ->
    w_fetch w [image] upload = Resolved ru ->
    ok ru = true ->
    body ru = JsonBody mediaItem ->
    mediaItem <> JNull -> mediaItem <> JUndefined ->
    w_fetch w [image; upload] update = Rejected m ->
    serve w (ServerJs.media_handler req)
    = ([image; upload; update],
       inr {| res_status := 500;
              res_body := JObj [("error", JStr m)] |}).
Proof.
  intros w s u p img t r0 ru mediaItem m Hs Hu Hp Ht Himg req base auth
    image upload update H0 Hok0 Hw Hok Hb Hn Hu' Hpatch.
  unfold req.
  earlier_media_start Himg; fold base auth image; rewrite H0; cbn;
    rewrite Hok0; cbn; fold_form w 0 r0 (Some t); fold upload;
    rewrite Hw; cbn; rewrite Hok; unfold json; rewrite Hb; cbn;
    rewrite !(get_prop_field mediaItem) by assumption; cbn;
    fold update; rewrite Hpatch; reflexivity.
Qed.

(** X10.  In the earlier variant an upload answered with a status that is
    not 2xx and a body that is not JSON is not relayed: the answer is
    status 500 with the message of the parse error, and the status of the
    upstream is lost. *)
Theorem earlier_variant_unparsable_failure :
  forall (w : World) (s u p img : string) (title : JsStr)
         (r0 ru : Response) (text reason : string),
    s <> "" -> u <> "" -> p <> "" ->
    startsWith img "http://" || startsWith img "https://" = true ->
    let req := Media.mkReq (Some s) (Some u) (Some p) (Some img) title in
    let image := ServerJs.image_request (Some img) in
    let upload :=
      ServerJs.upload_request (replace_trailing_slash s)
        (getWpAuthHeader u p) (image_form w 0 (body r0) title) in
    w_fetch w [] image = Resolved r0 ->
    ok r0 = true ->
    w_fetch w [image] upload = Resolved ru ->
    ok ru = false ->
    body ru = RawBody text reason ->
    serve w (ServerJs.media_handler req)
    = ([image; upload],
       inr {| res_status := 500;
              res_body := JObj [("error", JStr reason)] |}).
Proof.
  intros w s u p img title r0 ru text reason Hs Hu Hp Himg req image upload
    H0 Hok0 Hw Hok Hb.
  unfold req.
  earlier_media_start Himg; fold image; rewrite H0; cbn;
    rewrite Hok0; cbn; fold_form w 0 r0 title; fold upload;
    rewrite Hw; cbn; rewrite Hok; unfold json; rewrite Hb; reflexivity.
Qed.

(** X11.  The earlier variant never intercepts a redirect: none of its
    requests gives a [redirect] option, and every request it sends after
    the fetch of the image carries the Authorization header. *)
Theorem earlier_variant_requests :
  forall (w : World) (req : Media.Req),
    Forall (fun rq =>
              req_redirect rq = None
              /\ (rq = ServerJs.image_request (Media.imageUrl req)
                  \/ header "Authorization" (req_headers rq)
                     = Some (getWpAuthHeader
                               (str_ToString (Media.username req))
                               (str_ToString (Media.appPassword req)))))
      (fst (serve w (ServerJs.media_handler req))).
Proof.
  intros w req. apply AllFetch_run.
  unfold ServerJs.media_handler, res_json.
  all_fetch; cbv beta; split; try reflexivity;
    first [left; reflexivity | right; reflexivity].
Qed.

(** ** The base URL *)

Lemma replace_trailing_slash_app s :
  replace_trailing_slash (s ++ "/") = s.
Proof.
  induction s as [|c s IH]; [reflexivity|].
  assert (E : exists d r, s ++ "/" = String d r)
    by (destruct s; cbn; eauto).
  destruct E as (d & r & E).
  cbn [String.append].
  change (replace_trailing_slash (String c (s ++ "/")))
    with (match s ++ "/" with
          | "" => if (c =? "/")%char then "" else String c (s ++ "/")
          | String _ _ => String c (replace_trailing_slash (s ++ "/"))
          end).
  rewrite IH, E. reflexivity.
Qed.

Lemma replace_trailing_slash_cases s :
  s = replace_trailing_slash s \/ s = replace_trailing_slash s ++ "/".
Proof.
  induction s as [|c s IH]; [left; reflexivity|].
  unfold replace_trailing_slash; fold replace_trailing_slash.
  destruct s as [|d s'].
  - destruct (Ascii.eqb_spec c "/"); [right; subst; reflexivity
                                      | left; reflexivity].
  - destruct IH as [IH|IH]; [left | right]; cbn [String.append];
      congruence.
Qed.

(** X12.  The normalisation of the site URL removes one trailing slash
    and nothing else: a URL that ends with a slash loses that one slash
    (of two trailing slashes one is left), and any other URL is
    unchanged.  So the URLs built from the base URL never have a double
    slash at the joint when the site URL has at most one trailing
    slash. *)
Theorem base_url_strips_one_slash :
  forall s : string,
    replace_trailing_slash (s ++ "/") = s
    /\ (s = replace_trailing_slash s
        \/ s = replace_trailing_slash s ++ "/")
    /\ ((forall t, s <> t ++ "/") -> replace_trailing_slash s = s).
Proof.
  intros s. split; [apply replace_trailing_slash_app|].
  split; [apply replace_trailing_slash_cases|].
  intros H. destruct (replace_trailing_slash_cases s) as [E|E].
  - now symmetry.
  - exfalso. exact (H _ E).
Qed.

(** ** The Authorization header, once more *)

Lemma length_string_app a b :
  String.length (a ++ b) = String.length a + String.length b.
Proof. induction a as [|c a IH]; cbn; congruence. Qed.

Section HeaderText.

#[local] Ltac Zify.zify_post_hook ::= Z.div_mod_to_equations.

Lemma b64_char_is_base64 n : is_base64_char (b64_char n) = true.
Proof.
  do 64 (destruct n as [|n]; [reflexivity|]).
  reflexivity.
Qed.

Lemma base64_encode_chars s :
  forall_chars is_base64_char (base64_encode s) = true.
Proof.
  induction s as [|a|a b|a b c s IH] using string_ind3;
    cbn [base64_encode forall_chars];
    rewrite ?b64_char_is_base64, ?IH; reflexivity.
Qed.

Lemma base64_encode_length s :
  String.length (base64_encode s) = 4 * ((String.length s + 2) / 3).
Proof.
  induction s as [|a|a b|a b c s IH] using string_ind3;
    cbn [base64_encode String.length]; try reflexivity.
  rewrite IH. lia.
Qed.

End HeaderText.

(** X13.  Whatever the username and the password contain, the header
    value is "Basic " followed by characters of the base64 alphabet only
    (letters, digits, [+], [/], [=]) - so no control character, line
    break or space of the credentials reaches the header - and the length
    of that text is four characters for every three bytes, rounded up, of
    [username:appPassword]. *)
Theorem auth_header_text :
  forall username appPassword : string,
    exists credentials,
      getWpAuthHeader username appPassword = "Basic " ++ credentials
      /\ forall_chars is_base64_char credentials = true
      /\ String.length credentials
         = 4 * ((String.length username + 1 + String.length appPassword + 2)
                / 3).
Proof.
  intros username appPassword.
  exists (base64_encode (username ++ ":" ++ appPassword)).
  split; [reflexivity|]. split; [apply base64_encode_chars|].
  rewrite base64_encode_length.
  rewrite length_string_app. cbn [String.append String.length].
  f_equal. f_equal. lia.
Qed.

Lemma base64_encode_injective a b :
  base64_encode a = base64_encode b -> a = b.
Proof.
  intros H. apply (f_equal base64_decode) in H.
  rewrite !base64_roundtrip in H. now inversion H.
Qed.

Lemma colon_split_unique u u' p p' :
  forall_chars (fun c => negb (c =? ":")%char) u = true ->
  forall_chars (fun c => negb (c =? ":")%char) u' = true ->
  u ++ ":" ++ p = u' ++ ":" ++ p' ->
  u = u' /\ p = p'.
Proof.
  revert u'. induction u as [|c u IH]; intros [|c' u'] Hu Hu' E;
    cbn in Hu, Hu', E.
  - inversion E. auto.
  - inversion E; subst c'. discriminate Hu'.
  - inversion E; subst c. discriminate Hu.
  - apply andb_prop in Hu as [_ Hu]. apply andb_prop in Hu' as [_ Hu'].
    inversion E; subst c'.
    destruct (IH u' Hu Hu') as [-> ->]; auto.
Qed.

(** X14.  Two pairs of credentials get the same header exactly when the
    texts [username:appPassword] are the same; when the usernames have no
    colon, that is when the usernames and the passwords are the same. *)
Theorem auth_header_injective :
  forall u p u' p' : string,
    getWpAuthHeader u p = getWpAuthHeader u' p' ->
    u ++ ":" ++ p = u' ++ ":" ++ p'
    /\ (forall_chars (fun c => negb (c =? ":")%char) u = true ->
        forall_chars (fun c => negb (c =? ":")%char) u' = true ->
        u = u' /\ p = p').
Proof.
  intros u p u' p' H.
  assert (E : u ++ ":" ++ p = u' ++ ":" ++ p').
  { unfold getWpAuthHeader in H. cbn [String.append] in H.
    inversion H as [H']. now apply base64_encode_injective. }
  split; [exact E|].
  intros Hu Hu'. exact (colon_split_unique u u' p p' Hu Hu' E).
Qed.

(** ** The search URL *)



(** ** The filename, once more *)

Lemma forall_chars_app f a b :
  forall_chars f a = true -> forall_chars f b = true ->
  forall_chars f (a ++ b) = true.
Proof.
  intros Ha Hb. induction a as [|c a IH]; [exact Hb|].
  cbn [forall_chars String.append] in *.
  apply andb_prop in Ha as [Hc Ha]. now rewrite Hc, IH.
Qed.

Lemma forall_chars_substring_map f g n s :
  (forall c, f (g c) = true) ->
  forall_chars f (substring 0 n (map_string g s)) = true.
Proof.
  intros H. revert s. induction n as [|n IH]; intros [|c s]; cbn;
    try reflexivity.
  now rewrite H, IH.
Qed.

(** X16.  The filename of an upload is safe to put into a multipart
    header: whatever the title is, it consists of letters, digits,
    hyphens and the dot of the extension only, and it is at most 63
    characters long. *)
Theorem filename_is_safe :
  forall title : JsStr,
    forall_chars is_filename_char (filename title) = true
    /\ String.length (filename title) <= 63.
Proof.
  intros title. unfold filename, safeTitle, replace_non_alnum. split.
  - apply forall_chars_app; [|reflexivity].
    apply forall_chars_substring_map.
    intros c. unfold is_filename_char.
    destruct (is_alnum c) eqn:Hc; [now rewrite Hc | reflexivity].
  - rewrite length_string_app, length_substring_0.
    cbn [String.length]. lia.
Qed.

(** ** [POST /api/claude] *)

Arguments Claude.messages_request : simpl never.

(** X17.  The Claude endpoint is a pass-through: it validates nothing,
    issues exactly one upstream request for every request it gets - a
    POST of the prompt, as the one user message, and of the system prompt
    to the messages API, with the API key of the server in the
    [x-api-key] header and nowhere else - and answers a 2xx upstream
    response by its JSON body, unchanged, with status 200. *)
Theorem claude_passes_through :
  forall (w : World) (apiKey : JsStr) (req : Claude.Req),
    let rq :=
      Claude.messages_request apiKey (Claude.prompt req)
        (Claude.systemPrompt req) in
    (exists result, serve w (Claude.handler apiKey req) = ([rq], inr result))
    /\ req_url rq = "https://api.anthropic.com/v1/messages"
    /\ req_method rq = POST
    /\ req_headers rq
       = [("Content-Type", "application/json");
          ("x-api-key", str_ToString apiKey);
          ("anthropic-version", "2023-06-01")]
    /\ (exists fields,
           req_body rq = JsonText (JObj fields)
           /\ lookup_field "system" fields = Some (Claude.systemPrompt req)
           /\ lookup_field "messages" fields
              = Some (JArr [JObj [("role", JStr "user");
                                  ("content", Claude.prompt req)]]))
    /\ (forall r data,
           w_fetch w [] rq = Resolved r ->
           ok r = true ->
           body r = JsonBody data ->
           serve w (Claude.handler apiKey req)
           = ([rq], inr {| res_status := 200; res_body := data |})).
Proof.
  intros w apiKey req rq.
  split.
  { unfold serve, Claude.handler. cbn. fold rq.
    destruct (w_fetch w [] rq) as [r|m]; cbn; [|eauto].
    unfold json.
    destruct (ok r), (body r) as [v|text reason]; cbn; eauto.
    destruct (Claude.error_message_of v); cbn; eauto. }
  do 3 (split; [reflexivity|]).
  split; [eexists; repeat split; reflexivity|].
  intros r data Hw Hok Hb.
  unfold serve, Claude.handler. cbn. fold rq. rewrite Hw. cbn.
  rewrite Hok. unfold json. rewrite Hb. reflexivity.
Qed.

(** X18.  An upstream failure of the Claude endpoint is relayed with the
    status of the upstream; its message is [error.message] of the JSON
    body when there is a truthy one, and "Claude API failed" otherwise.
    When the body of a response, failed or not, is not JSON, or when the
    request fails at the network level, the answer is status 500 with
    the message of the error. *)
Theorem claude_failure_is_translated :
  forall (w : World) (apiKey : JsStr) (req : Claude.Req),
    let rq :=
      Claude.messages_request apiKey (Claude.prompt req)
        (Claude.systemPrompt req) in
    (forall r errorData,
        w_fetch w [] rq = Resolved r ->
        ok r = false ->
        body r = JsonBody errorData ->
        errorData <> JNull -> errorData <> JUndefined ->
        let message := field "message" (field "error" errorData) in
        serve w (Claude.handler apiKey req)
        = ([rq],
           inr {| res_status := status r;
                  res_body :=
                    JObj [("error",
                           if js_truthy message then message
                           else JStr "Claude API failed")] |}))
    /\ (forall r text reason,
           w_fetch w [] rq = Resolved r ->
           body r = RawBody text reason ->
           serve w (Claude.handler apiKey req)
           = ([rq],
              inr {| res_status := 500;
                     res_body := JObj [("error", JStr reason)] |}))
    /\ (forall m,
           w_fetch w [] rq = Rejected m ->
           serve w (Claude.handler apiKey req)
           = ([rq],
              inr {| res_status := 500;
                     res_body := JObj [("error", JStr m)] |})).
Proof.
  intros w apiKey req rq. split; [|split].
  - intros r errorData Hw Hok Hb Hn Hu message.
    assert (E : Claude.error_message_of errorData = inr message).
    { unfold Claude.error_message_of, message.
      rewrite (get_prop_field errorData "error") by assumption. cbn.
      destruct (field "error" errorData) as [| | | | |items|fields];
        try reflexivity.
      cbn. destruct (lookup_field "message" fields); reflexivity. }
    unfold serve, Claude.handler. cbn. fold rq. rewrite Hw. cbn.
    rewrite Hok. unfold json. rewrite Hb. cbn. rewrite E. reflexivity.
  - intros r text reason Hw Hb.
    unfold serve, Claude.handler. cbn. fold rq. rewrite Hw. cbn.
    unfold json. rewrite Hb. destruct (ok r); reflexivity.
  - intros m Hw.
    unfold serve, Claude.handler. cbn. fold rq. rewrite Hw. reflexivity.
Qed.

(** ** A success that cannot be read *)

(** X19.  When the final upstream response of an upload or of a post
    creation is a 2xx whose body is not JSON, the redirect-aware handlers
    answer status 500 with the message of the parse error, and the media
    handler attempts no metadata update. *)
Theorem unreadable_success_is_an_error :
  (forall (w : World) (s u p img : string) (title : JsStr)
          (r0 : Response) (sent : list Request) (rf : Response)
          (text reason : string),
      s <> "" -> u <> "" -> p <> "" ->
      startsWith img "http://" || startsWith img "https://" = true ->
      let req := Media.mkReq (Some s) (Some u) (Some p) (Some img) title in
      let base := replace_trailing_slash s in
      let auth := getWpAuthHeader u p in
      let image := Media.image_request (Some img) in
      w_fetch w [] image = Resolved r0 ->
      ok r0 = true ->
      final_response w [image]
        (Media.upload_request (base ++ "/wp-json/wp/v2/media") auth
           (image_form w 0 (body r0) title))
        (fun loc =>
           Media.redirected_request loc auth
             (image_form w 1 (body r0) title))
        sent rf ->
      ok rf = true ->
      body rf = RawBody text reason ->
      serve w (Media.handler req)
      = (image :: sent,
         inr {| res_status := 500;
                res_body := JObj [("error", JStr reason)] |}))
  /\ (forall (w : World) (s u p t c : string) (fid cid : JsValue)
             (sent : list Request) (rf : Response) (text reason : string),
         s <> "" -> u <> "" -> p <> "" -> t <> "" -> c <> "" ->
         let req := Posts.mkReq (Some s) (Some u) (Some p) (JStr t) (Some c)
                      fid cid in
         let base := replace_trailing_slash s in
         let auth := getWpAuthHeader u p in
         let payload := Posts.postData (JStr t) (Some c) fid cid in
         final_response w [] (Posts.post_request base auth payload)
           (fun loc => Posts.redirected_request loc auth payload)
           sent rf ->
         ok rf = true ->
         body rf = RawBody text reason ->
         serve w (Posts.handler req)
         = (sent,
            inr {| res_status := 500;
                   res_body := JObj [("error", JStr reason)] |})).
Proof.
  split.
  - intros w s u p img title r0 sent rf text reason Hs Hu Hp Himg req base
      auth image H0 Hok0 Hfinal Hok Hb.
    unfold req.
    rewrite (media_reaches_final w s u p img title r0 sent rf Hs Hu Hp Himg
               H0 Hok0 Hfinal).
    rewrite Hok. cbn [negb]. unfold Media.upload_succeeded, json.
    rewrite Hb. cbn. rewrite app_nil_r. reflexivity.
  - intros w s u p t c fid cid sent rf text reason Hs Hu Hp Ht Hc req base
      auth payload Hfinal Hok Hb.
    unfold req.
    rewrite (posts_reaches_final w s u p t c fid cid sent rf Hs Hu Hp Ht Hc
               Hfinal).
    rewrite Hok. cbn [negb]. unfold Posts.post_succeeded, json.
    rewrite Hb. cbn. rewrite app_nil_r. reflexivity.
Qed.

(** ** No retries *)

Section FetchBounds.

Lemma FetchBound_mono {A} (p : Prog A) :
  forall n m, n <= m -> FetchBound n p -> FetchBound m p.
Proof.
  induction p as [a|e|rq k IH|k IH]; cbn; intros n m Hle H; auto.
  - destruct n as [|n]; [contradiction|].
    destruct m as [|m]; [lia|].
    intros o. apply (IH o n m); [lia | apply H].
  - intros fd. apply (IH fd n m Hle), H.
Qed.

Lemma FetchBound_bind {A B} (a b n : nat) (p : Prog A) (f : A -> Prog B) :
  a + b <= n ->
  FetchBound a p -> (forall x, FetchBound b (f x)) ->
  FetchBound n (bind p f).
Proof.
  intros Hle Hp Hf. revert a n Hle Hp.
  induction p as [x|e|rq k IH|k IH]; cbn; intros a n Hle Hp.
  - apply (FetchBound_mono _ b n); [lia | apply Hf].
  - exact I.
  - destruct a as [|a]; [contradiction|].
    destruct n as [|n]; [lia|].
    intros o. apply (IH o a n); [lia | apply Hp].
  - intros fd. apply (IH fd a n Hle), Hp.
Qed.

Lemma FetchBound_try_catch {A} (a b n : nat) (p : Prog A)
  (h : JsError -> Prog A) :
  a + b <= n ->
  FetchBound a p -> (forall e, FetchBound b (h e)) ->
  FetchBound n (try_catch p h).
Proof.
  intros Hle Hp Hh. revert a n Hle Hp.
  induction p as [x|e|rq k IH|k IH]; cbn; intros a n Hle Hp.
  - exact I.
  - apply (FetchBound_mono _ b n); [lia | apply Hh].
  - destruct a as [|a]; [contradiction|].
    destruct n as [|n]; [lia|].
    intros o. apply (IH o a n); [lia | apply Hp].
  - intros fd. apply (IH fd a n Hle), Hp.
Qed.

Lemma FetchBound_run {A} (p : Prog A) :
  forall n w hist nfd,
    FetchBound n p -> length (fst (run w hist nfd p)) <= n.
Proof.
  induction p as [a|e|rq k IH|k IH]; cbn; intros n w hist nfd H;
    try lia.
  - destruct n as [|n]; [contradiction|].
    specialize (IH _ n w (hist ++ [rq])%list nfd (H (w_fetch w hist rq))).
    destruct (run w (hist ++ [rq])%list nfd (k (w_fetch w hist rq))).
    cbn in *. lia.
  - apply IH, H.
Qed.

Lemma FetchBound_liftR {A} n (r : Result A) : FetchBound n (liftR r).
Proof. destruct r; exact I. Qed.

Lemma FetchBound_json n r : FetchBound n (json r).
Proof. unfold json. destruct (body r); exact I. Qed.

Lemma FetchBound_await n rq : FetchBound (S n) (await_fetch rq).
Proof. intros []; exact I. Qed.

Lemma FetchBound_new_FormData n : FetchBound n new_FormData.
Proof. intros fd. exact I. Qed.

End FetchBounds.

(** [fetch_bound]: at most [n] requests, [n] a numeral.  A block bound to
    a name is given no request when that is enough, and one otherwise. *)
Ltac fetch_bound :=
  lazymatch goal with
  | |- FetchBound _ (Ret _) => exact I
  | |- FetchBound _ (res_status_json _ _) => exact I
  | |- FetchBound _ (catch_500 _) => exact I
  | |- FetchBound _ (liftR _) => apply FetchBound_liftR
  | |- FetchBound _ (json _) => apply FetchBound_json
  | |- FetchBound _ new_FormData => apply FetchBound_new_FormData
  | |- FetchBound (S _) (await_fetch _) => apply FetchBound_await
  | |- FetchBound ?n (try_catch _ _) =>
      apply (FetchBound_try_catch n 0 n);
      [lia | fetch_bound | intros ?; fetch_bound]
  | |- FetchBound ?n (bind _ _) =>
      first
        [ apply (FetchBound_bind 0 n n);
          [lia | solve [fetch_bound] | intros ?; fetch_bound]
        | lazymatch n with
          | S ?m =>
              apply (FetchBound_bind 1 m n);
              [lia | solve [fetch_bound] | intros ?; fetch_bound]
          end ]
  | |- FetchBound _ (if ?b then _ else _) => destruct b; fetch_bound
  | |- FetchBound _ (match ?x with _ => _ end) => destruct x; fetch_bound
  end.

(** X20.  No handler retries or loops: serving one request issues at
    most two upstream requests in the categories handler (search,
    create), at most two in the posts handler (submission, one
    follow-up), at most four in the media handler (image, upload, one
    follow-up, metadata update), at most three in its earlier variant,
    and at most one in the Claude handler. *)
Theorem upstream_requests_are_bounded :
  (forall w req, length (fst (serve w (Categories.handler req))) <= 2)
  /\ (forall w req, length (fst (serve w (Posts.handler req))) <= 2)
  /\ (forall w req, length (fst (serve w (Media.handler req))) <= 4)
  /\ (forall w req, length (fst (serve w (ServerJs.media_handler req))) <= 3)
  /\ (forall w key req, length (fst (serve w (Claude.handler key req))) <= 1).
Proof.
  split; [|split; [|split; [|split]]]; intros; apply FetchBound_run.
  - unfold Categories.handler, Categories.create_category, res_json.
    fetch_bound.
  - unfold Posts.handler, Posts.post_failed, Posts.post_succeeded, res_json.
    fetch_bound.
  - unfold Media.handler, Media.upload_failed, Media.upload_succeeded,
      Media.createFormData, res_json.
    fetch_bound.
  - unfold ServerJs.media_handler, res_json. fetch_bound.
  - unfold Claude.handler, res_json. fetch_bound.
Qed.

(** ** Redirect modes *)

Section Shapes.

Variable Q : Request -> Prop.

Lemma Shape_nil_AllFetch {A} (p : Prog A) : AllFetch Q p -> Shape [] Q p.
Proof.
  induction p as [a|e|rq k IH|k IH]; cbn; intros H; try exact I.
  - destruct H as [Hrq Hk]. split; [exact Hrq|]. intros o. apply IH, Hk.
  - intros fd Hfd. apply IH, H, Hfd.
Qed.

Lemma Shape_pure {A} (p : Prog A) :
  FetchBound 0 p -> forall Ps, Shape Ps Q p.
Proof.
  induction p as [a|e|rq k IH|k IH]; cbn; intros H Ps;
    try exact I; try contradiction.
  intros fd _. apply IH, H.
Qed.

Lemma Shape_run {A} (p : Prog A) :
  forall Ps, Shape Ps Q p ->
  forall w hist nfd, shaped Ps Q (fst (run w hist nfd p)).
Proof.
  induction p as [a|e|rq k IH|k IH]; cbn; intros Ps H w hist nfd;
    try exact I.
  - pose proof (IH (w_fetch w hist rq)) as IH'.
    destruct Ps as [|P Ps]; destruct H as [Hrq Hk];
      specialize (IH' _ (Hk (w_fetch w hist rq)) w (hist ++ [rq])%list nfd);
      destruct (run w (hist ++ [rq])%list nfd (k (w_fetch w hist rq)));
      cbn in *; split; assumption.
  - apply IH, H. reflexivity.
Qed.

Lemma Shape_try_catch {A} (p : Prog A) (h : JsError -> Prog A) :
  forall Ps,
    Shape Ps Q p -> (forall e, FetchBound 0 (h e)) ->
    Shape Ps Q (try_catch p h).
Proof.
  induction p as [a|e|rq k IH|k IH]; cbn; intros Ps H Hh.
  - exact I.
  - apply Shape_pure, Hh.
  - destruct Ps as [|P Ps]; destruct H as [Hrq Hk]; (split; [exact Hrq|]);
      intros o; apply IH; auto.
  - intros fd Hfd. apply IH; auto.
Qed.

Lemma Shape_bind_pure {A B} (p : Prog A) (f : A -> Prog B) :
  forall Ps,
    FetchBound 0 p -> (forall x, Shape Ps Q (f x)) ->
    Shape Ps Q (bind p f).
Proof.
  induction p as [a|e|rq k IH|k IH]; cbn; intros Ps H Hf;
    try exact I; try contradiction.
  - apply Hf.
  - intros fd _. apply IH; [apply H | exact Hf].
Qed.

Lemma Shape_bind_await {B} (P : Request -> Prop) Ps rq
  (f : Response -> Prog B) :
  P rq -> (forall r, Shape Ps Q (f r)) ->
  Shape (P :: Ps) Q (bind (await_fetch rq) f).
Proof.
  intros Hrq Hf. cbn. split; [exact Hrq|].
  intros [r|m]; cbn; [apply Hf | exact I].
Qed.

End Shapes.

(** [shape]: the first requests of a handler one by one, and the rest of
    them by [all_fetch]. *)
Ltac shape :=
  lazymatch goal with
  | |- Shape _ _ (Ret _) => exact I
  | |- Shape _ _ (res_status_json _ _) => exact I
  | |- Shape _ _ (try_catch _ catch_500) =>
      apply Shape_try_catch; [shape | intros ?; exact I]
  | |- Shape [] _ _ => apply Shape_nil_AllFetch; all_fetch
  | |- Shape (_ :: _) _ (bind (await_fetch _) _) =>
      apply Shape_bind_await; [ | intros ?; shape]
  | |- Shape _ _ (bind _ _) =>
      apply Shape_bind_pure; [solve [fetch_bound] | intros ?; shape]
  | |- Shape _ _ (if ?b then _ else _) => destruct b; shape
  | |- Shape _ _ (match ?x with _ => _ end) => destruct x; shape
  end.

(** C3, as amended.  Only the first submission of a media upload and of
    a post creation is issued with [redirect: 'manual'], so that a
    redirect of it is intercepted: in every run of the media handler the
    first request is the fetch of the source image, which asks for
    ['follow'], the second is the upload, with ['manual'], and every
    later one - the request that follows a redirect, the metadata
    update - gives no [redirect] option; in every run of the posts
    handler the first request is the submission, with ['manual'], and the
    one that may follow it gives no option; and no request of the
    category resolver gives one.  A request that gives none is left to
    the transport's own redirect handling.  The first submissions are
    indeed issued: the upload once the image is fetched, the post once
    the request has passed validation. *)
Theorem manual_redirect_only_on_first_submission :
  (forall (w : World) (req : Categories.Req),
      Forall (fun rq => req_redirect rq = None)
        (fst (serve w (Categories.handler req))))
  /\ (forall (w : World) (req : Media.Req),
         shaped
           [ (fun rq =>
                rq = Media.image_request (Media.imageUrl req)
                /\ req_redirect rq = Some RedirectFollow);
             (fun rq =>
                (exists url auth fd, rq = Media.upload_request url auth fd)
                /\ req_redirect rq = Some RedirectManual) ]
           (fun rq =>
              ((exists loc auth fd,
                   rq = Media.redirected_request loc auth fd)
               \/ (exists base auth id,
                      rq = Media.alt_text_request base auth id
                             (Media.title req)))
              /\ req_redirect rq = None)
           (fst (serve w (Media.handler req))))
  /\ (forall (w : World) (req : Posts.Req),
         shaped
           [ (fun rq =>
                (exists base auth payload,
                    rq = Posts.post_request base auth payload)
                /\ req_redirect rq = Some RedirectManual) ]
           (fun rq =>
              (exists loc auth payload,
                  rq = Posts.redirected_request loc auth payload)
              /\ req_redirect rq = None)
           (fst (serve w (Posts.handler req))))
  /\ (forall (w : World) (s u p img : string) (title : JsStr)
             (r0 : Response),
         s <> "" -> u <> "" -> p <> "" ->
         startsWith img "http://" || startsWith img "https://" = true ->
         let req :=
           Media.mkReq (Some s) (Some u) (Some p) (Some img) title in
         let image := Media.image_request (Some img) in
         let upload :=
           Media.upload_request
             (replace_trailing_slash s ++ "/wp-json/wp/v2/media")
             (getWpAuthHeader u p) (image_form w 0 (body r0) title) in
         w_fetch w [] image = Resolved r0 ->
         ok r0 = true ->
         exists rest result,
           serve w (Media.handler req)
           = (image :: upload :: rest, inr result)
           /\ req_redirect upload = Some RedirectManual)
  /\ (forall (w : World) (s u p t c : string) (fid cid : JsValue),
         s <> "" -> u <> "" -> p <> "" -> t <> "" -> c <> "" ->
         let req := Posts.mkReq (Some s) (Some u) (Some p) (JStr t) (Some c)
                      fid cid in
         let post :=
           Posts.post_request (replace_trailing_slash s)
             (getWpAuthHeader u p)
             (Posts.postData (JStr t) (Some c) fid cid) in
         exists rest result,
           serve w (Posts.handler req) = (post :: rest, inr result)
           /\ req_redirect post = Some RedirectManual).
Proof.
  split; [|split; [|split; [|split]]].
  - intros w req. apply categories_requests_follow.
  - intros w req. apply Shape_run.
    unfold Media.handler, Media.upload_failed, Media.upload_succeeded,
      Media.createFormData, res_json.
    shape; cbv beta; eauto 10.
  - intros w req. apply Shape_run.
    unfold Posts.handler, Posts.post_failed, Posts.post_succeeded, res_json.
    shape; cbv beta; eauto 10.
  - intros w s u p img title r0 Hs Hu Hp Himg req image upload H0 Hok0.
    unfold req.
    media_start Himg; fold image; rewrite H0; cbn; rewrite Hok0; cbn;
      fold_form w 0 r0 title; fold upload;
      finish_catch_500; eauto.
  - intros w s u p t c fid cid Hs Hu Hp Ht Hc req post.
    unfold req. posts_start. fold post. finish_catch_500. eauto.
Qed.

(** X21.  When the creation response is a 2xx with a JSON body other
    than [null], the earlier variant sends the metadata update whenever a
    title is supplied, without looking at the [id] of the media item: to
    [.../media/undefined] when the creation response has none.  The
    answer to the update is not read: whatever its status, the result is
    [{id, url}] of the creation response.  When the body of the creation
    response is the JSON [null] and a title is supplied, reading the [id]
    throws: the answer is status 500 and no update is sent. *)
Theorem earlier_variant_update_is_unguarded :
  forall (w : World) (s u p img t : string) (r0 ru : Response),
    s <> "" -> u <> "" -> p <> "" -> t <> "" ->
    startsWith img "http://" || startsWith img "https://" = true ->
    let req :=
      Media.mkReq (Some s) (Some u) (Some p) (Some img) (Some t) in
    let base := replace_trailing_slash s in
    let auth := getWpAuthHeader u p in
    let image := ServerJs.image_request (Some img) in
    let upload :=
      ServerJs.upload_request base auth
        (image_form w 0 (body r0) (Some t)) in
    w_fetch w [] image = Resolved r0 ->
    ok r0 = true ->
    w_fetch w [image] upload = Resolved ru ->
    ok ru = true ->
    (forall (mediaItem : JsValue) (rp : Response),
        let update :=
          Media.alt_text_request base auth (field "id" mediaItem)
            (Some t) in
        body ru = JsonBody mediaItem ->
        mediaItem <> JNull -> mediaItem <> JUndefined ->
        w_fetch w [image; upload] update = Resolved rp ->
        serve w (ServerJs.media_handler req)
        = ([image; upload; update],
           inr {| res_status := 200;
                  res_body :=
                    JObj [("id", field "id" mediaItem);
                          ("url", field "source_url" mediaItem)] |})
        /\ req_url update
           = base ++ "/wp-json/wp/v2/media/"
               ++ ToString (field "id" mediaItem)
        /\ (field "id" mediaItem = JUndefined ->
            req_url update = base ++ "/wp-json/wp/v2/media/undefined"))
    /\ (body ru = JsonBody JNull ->
        exists message,
          serve w (ServerJs.media_handler req)
          = ([image; upload],
             inr {| res_status := 500;
                    res_body := JObj [("error", JStr message)] |})).
Proof.
  intros w s u p img t r0 ru Hs Hu Hp Ht Himg req base auth image upload
    H0 Hok0 Hw Hok.
  split.
  - intros mediaItem rp update Hb Hn Hu' Hpatch.
    split; [|split; [reflexivity|]].
    + unfold req.
      earlier_media_start Himg; fold base auth image; rewrite H0; cbn;
        rewrite Hok0; cbn; fold_form w 0 r0 (Some t); fold upload;
        rewrite Hw; cbn; rewrite Hok; unfold json; rewrite Hb; cbn;
        rewrite !(get_prop_field mediaItem) by assumption; cbn;
        fold update; rewrite Hpatch; reflexivity.
    + intros E. unfold update, Media.alt_text_request. cbn [req_url].
      rewrite E. reflexivity.
  - intros Hb. eexists. unfold req.
    earlier_media_start Himg; fold base auth image; rewrite H0; cbn;
      rewrite Hok0; cbn; fold_form w 0 r0 (Some t); fold upload;
      rewrite Hw; cbn; rewrite Hok; unfold json; rewrite Hb; reflexivity.
Qed.

(* ================================================================= *)
(** * Instances of the further properties *)

Lemma empty_username_is_rejected :
  serve travel_world
    (Categories.handler
       (Categories.mkReq (Some "https://blog.example.org/") (Some "")
          (Some "abcd efgh") (Some "travel")))
  = ([], inr {| res_status := 400;
                res_body :=
                  JObj [("error",
                         JStr "Missing WordPress credentials")] |}).
Proof.
  exact (proj1 (categories_validation travel_world
                  (Categories.mkReq (Some "https://blog.example.org/")
                     (Some "") (Some "abcd efgh") (Some "travel")))
           eq_refl).
Defined.

Lemma ftp_image_is_rejected :
  serve offline_world (Media.handler ftp_request)
  = ([], inr {| res_status := 400;
                res_body :=
                  JObj [("error",
                         JStr "Invalid image URL format: ftp://x/y.jpg")] |}).
Proof.
  exact (proj2 (media_validation offline_world ftp_request)
           "ftp://x/y.jpg" eq_refl eq_refl ltac:(discriminate) eq_refl).
Defined.

Lemma empty_title_is_rejected :
  serve offline_world (Posts.handler untitled_request)
  = ([], inr {| res_status := 400;
                res_body :=
                  JObj [("error", JStr "Missing required fields")] |}).
Proof.
  exact (proj1 (posts_validation offline_world untitled_request)
           eq_refl eq_refl).
Defined.

(** Instance of X5: an upload redirected to another host.  The image
    host gets no credentials; the host that the Location header names
    gets them. *)
Lemma credentials_follow_the_redirect :
  let auth := getWpAuthHeader "editor" "abcd efgh" in
  exists follow_up rest result,
    serve redirecting_world (Media.handler sunset_request)
    = (Media.image_request (Some "https://images.example.org/sunset.png")
       :: Media.upload_request
            "https://blog.example.org/wp-json/wp/v2/media" auth
            (image_form redirecting_world 0 (body sunset_image)
               (Some "Sunset at sea"))
       :: follow_up :: rest,
       inr result)
    /\ req_url follow_up = "https://www.example.org/wp-json/wp/v2/media"
    /\ header "Authorization" (req_headers follow_up) = Some auth.
Proof.
  intros auth.
  destruct (proj2 (proj2 (proj2 credentials_and_their_destinations))
              redirecting_world
              "https://blog.example.org/" "editor" "abcd efgh"
              "https://images.example.org/sunset.png"
              (Some "Sunset at sea") sunset_image
              (moved "https://www.example.org/wp-json/wp/v2/media")
              "https://www.example.org/wp-json/wp/v2/media"
              ltac:(discriminate) ltac:(discriminate) ltac:(discriminate)
              eq_refl eq_refl eq_refl eq_refl eq_refl eq_refl
              ltac:(discriminate))
    as (follow_up & rest & result & Hserve & _ & _ & _ & Hurl & Hauth).
  exists follow_up, rest, result.
  split; [exact Hserve|]. split; [exact Hurl | exact Hauth].
Defined.

Lemma missing_image_is_reported :
  serve (scripted [Resolved image_missing]) (Media.handler sunset_request)
  = ([Media.image_request (Some "https://images.example.org/sunset.png")],
     inr {| res_status := 400;
            res_body :=
              JObj [("error",
                     JStr "Failed to fetch image from URL: 404")] |}).
Proof.
  exact (proj1 (image_fetch_failure (scripted [Resolved image_missing])
                  "https://blog.example.org/" "editor" "abcd efgh"
                  "https://images.example.org/sunset.png"
                  (Some "Sunset at sea")
                  ltac:(discriminate) ltac:(discriminate)
                  ltac:(discriminate) eq_refl)
           image_missing eq_refl eq_refl).
Defined.

Lemma hello_post_admin_link :
  serve (scripted [Resolved created_post]) (Posts.handler hello_request)
  = ([Posts.post_request "https://blog.example.org"
        (getWpAuthHeader "editor" "abcd efgh")
        (Posts.postData (JStr "Hello") (Some "<p>World</p>")
           (JNum 41) JUndefined)],
     inr {| res_status := 200;
            res_body :=
              JObj [("id", JNum 99);
                    ("link", JStr "https://blog.example.org/?p=99");
                    ("adminLink",
                     JStr "https://blog.example.org/wp-admin/post.php?post=99&action=edit")] |}).
Proof.
  refine (post_created_admin_link (scripted [Resolved created_post])
            "https://blog.example.org" "editor" "abcd efgh" "Hello"
            "<p>World</p>" (JNum 41) JUndefined _ created_post _
            ltac:(discriminate) ltac:(discriminate) ltac:(discriminate)
            ltac:(discriminate) ltac:(discriminate) _ eq_refl eq_refl
            ltac:(discriminate) ltac:(discriminate)).
  apply final_first; reflexivity.
Defined.


Lemma nameless_request_fails_on_Travelogue :
  exists message,
    serve travel_world (Categories.handler (travel_request None))
    = ([Categories.search_request "https://blog.example.org"
          (getWpAuthHeader "editor" "abcd efgh") None],
       inr {| res_status := 500;
              res_body := JObj [("error", JStr message)] |}).
Proof.
  exact (missing_name_fails_on_first_category travel_world
           "https://blog.example.org/" "editor" "abcd efgh" _ _ _
           ltac:(discriminate) ltac:(discriminate) ltac:(discriminate)
           eq_refl eq_refl eq_refl).
Defined.

Lemma earlier_variant_loses_the_upload :
  let image :=
    ServerJs.image_request (Some "https://images.example.org/sunset.png") in
  let upload :=
    ServerJs.upload_request "https://blog.example.org"
      (getWpAuthHeader "editor" "abcd efgh")
      (image_form patch_fails_world 0 (body sunset_image)
         (Some "Sunset at sea")) in
  let update :=
    Media.alt_text_request "https://blog.example.org"
      (getWpAuthHeader "editor" "abcd efgh") (JNum 41)
      (Some "Sunset at sea") in
  serve patch_fails_world (ServerJs.media_handler sunset_request)
  = ([image; upload; update],
     inr {| res_status := 500;
            res_body := JObj [("error", JStr "connect ECONNREFUSED")] |}).
Proof.
  intros image upload update.
  exact (earlier_variant_update_failure_is_fatal patch_fails_world
           "https://blog.example.org/" "editor" "abcd efgh"
           "https://images.example.org/sunset.png" "Sunset at sea"
           sunset_image created_media _ "connect ECONNREFUSED"
           ltac:(discriminate) ltac:(discriminate) ltac:(discriminate)
           ltac:(discriminate) eq_refl eq_refl eq_refl eq_refl eq_refl
           eq_refl ltac:(discriminate) ltac:(discriminate) eq_refl).
Defined.

Lemma earlier_variant_bad_gateway :
  let w := scripted [Resolved sunset_image; Resolved gateway_error] in
  exists upload,
    serve w (ServerJs.media_handler sunset_request)
    = ([ServerJs.image_request
          (Some "https://images.example.org/sunset.png");
        upload],
       inr {| res_status := 500;
              res_body :=
                JObj [("error",
                       JStr "invalid json response body at https://blog.example.org/wp-json/wp/v2/media reason: Unexpected token < in JSON at position 0")] |}).
Proof.
  intros w. eexists.
  exact (earlier_variant_unparsable_failure w
           "https://blog.example.org/" "editor" "abcd efgh"
           "https://images.example.org/sunset.png" (Some "Sunset at sea")
           sunset_image gateway_error _ _
           ltac:(discriminate) ltac:(discriminate) ltac:(discriminate)
           eq_refl eq_refl eq_refl eq_refl eq_refl eq_refl).
Defined.

Lemma earlier_variant_updates_undefined :
  let w :=
    scripted [Resolved sunset_image; Resolved media_without_id;
              Resolved image_missing] in
  exists upload update,
    serve w (ServerJs.media_handler sunset_request)
    = ([ServerJs.image_request
          (Some "https://images.example.org/sunset.png");
        upload; update],
       inr {| res_status := 200;
              res_body :=
                JObj [("id", JUndefined);
                      ("url", JStr "https://blog.example.org/sunset.jpg")] |})
    /\ req_url update
       = "https://blog.example.org/wp-json/wp/v2/media/undefined".
Proof.
  intros w.
  destruct (proj1 (earlier_variant_update_is_unguarded w
                     "https://blog.example.org/" "editor" "abcd efgh"
                     "https://images.example.org/sunset.png"
                     "Sunset at sea" sunset_image media_without_id
                     ltac:(discriminate) ltac:(discriminate)
                     ltac:(discriminate) ltac:(discriminate)
                     eq_refl eq_refl eq_refl eq_refl eq_refl)
              _ image_missing eq_refl
              ltac:(discriminate) ltac:(discriminate) eq_refl)
    as (Hserve & _ & Hurl).
  eexists _, _. split; [exact Hserve | exact (Hurl eq_refl)].
Defined.

Lemma base_url_of_the_blog :
  replace_trailing_slash "https://blog.example.org"
  = "https://blog.example.org"
  /\ replace_trailing_slash ("https://blog.example.org" ++ "/")
     = "https://blog.example.org".
Proof.
  destruct (base_url_strips_one_slash "https://blog.example.org")
    as (Hslash & _ & Hother).
  split; [|exact Hslash].
  apply Hother. intros t E.
  assert (Ht : replace_trailing_slash (t ++ "/") = t)
    by apply (base_url_strips_one_slash t).
  rewrite <- E in Ht. vm_compute in Ht. subst t. discriminate E.
Defined.

Lemma same_header_same_credentials :
  "editor" ++ ":" ++ "abcd efgh" = "editor" ++ ":" ++ "abcd efgh"
  /\ ("editor" = "editor" /\ "abcd efgh" = "abcd efgh").
Proof.
  destruct (auth_header_injective "editor" "abcd efgh" "editor"
              "abcd efgh" eq_refl) as [E H].
  split; [exact E | exact (H eq_refl eq_refl)].
Defined.


Lemma claude_answer_is_passed_through :
  let w :=
    scripted
      [Resolved {| status := 200; location := None;
                   body := JsonBody
                             (JObj [("role", JStr "assistant");
                                    ("content", JArr [])]) |}] in
  serve w (Claude.handler (Some "sk-ant-key") claude_request)
  = ([Claude.messages_request (Some "sk-ant-key")
        (JStr "Summarise the transcript") (JStr "You are an editor")],
     inr {| res_status := 200;
            res_body := JObj [("role", JStr "assistant");
                              ("content", JArr [])] |}).
Proof.
  intros w.
  destruct (claude_passes_through w (Some "sk-ant-key") claude_request)
    as (_ & _ & _ & _ & _ & H).
  exact (H _ _ eq_refl eq_refl eq_refl).
Defined.

Lemma claude_overloaded_is_relayed :
  serve (scripted [Resolved overloaded])
    (Claude.handler (Some "sk-ant-key") claude_request)
  = ([Claude.messages_request (Some "sk-ant-key")
        (JStr "Summarise the transcript") (JStr "You are an editor")],
     inr {| res_status := 529;
            res_body := JObj [("error", JStr "Overloaded")] |}).
Proof.
  exact (proj1 (claude_failure_is_translated
                  (scripted [Resolved overloaded]) (Some "sk-ant-key")
                  claude_request)
           overloaded _ eq_refl eq_refl eq_refl
           ltac:(discriminate) ltac:(discriminate)).
Defined.

Lemma html_success_is_an_error :
  let html :=
    {| status := 200; location := None;
       body := RawBody "<html>Welcome</html>"
                 "invalid json response body" |} in
  let w := scripted [Resolved sunset_image; Resolved html] in
  let upload :=
    Media.upload_request "https://blog.example.org/wp-json/wp/v2/media"
      (getWpAuthHeader "editor" "abcd efgh")
      (image_form w 0 (body sunset_image) (Some "Sunset at sea")) in
  serve w (Media.handler sunset_request)
  = ([Media.image_request (Some "https://images.example.org/sunset.png");
      upload],
     inr {| res_status := 500;
            res_body :=
              JObj [("error", JStr "invalid json response body")] |}).
Proof.
  intros html w upload.
  refine (proj1 unreadable_success_is_an_error w
            "https://blog.example.org/" "editor" "abcd efgh"
            "https://images.example.org/sunset.png" (Some "Sunset at sea")
            sunset_image [upload] html _ _
            ltac:(discriminate) ltac:(discriminate) ltac:(discriminate)
            eq_refl eq_refl eq_refl _ eq_refl eq_refl).
  apply final_first; reflexivity.
Defined.


(** Instance of C3 as amended: the upload is the second request, and it
    is issued with [redirect: 'manual']. *)
Lemma sunset_upload_is_manual :
  exists rest result,
    serve patch_fails_world (Media.handler sunset_request)
    = (Media.image_request (Some "https://images.example.org/sunset.png")
       :: Media.upload_request
            "https://blog.example.org/wp-json/wp/v2/media"
            (getWpAuthHeader "editor" "abcd efgh")
            (image_form patch_fails_world 0 (body sunset_image)
               (Some "Sunset at sea"))
       :: rest,
       inr result).
Proof.
  destruct (proj1 (proj2 (proj2 (proj2
                     manual_redirect_only_on_first_submission)))
              patch_fails_world "https://blog.example.org/" "editor"
              "abcd efgh" "https://images.example.org/sunset.png"
              (Some "Sunset at sea") sunset_image
              ltac:(discriminate) ltac:(discriminate) ltac:(discriminate)
              eq_refl eq_refl eq_refl)
    as (rest & result & Hserve & _).
  exists rest, result. exact Hserve.
Defined.

(** Instance of C8: the payload of "Hello". *)
Lemma hello_payload_is_sent :
  exists fields rest result,
    serve forbidden_world (Posts.handler hello_request)
    = (Posts.post_request "https://blog.example.org"
         (getWpAuthHeader "editor" "abcd efgh") (JObj fields) :: rest,
       inr result)
    /\ lookup_field "status" fields = Some (JStr "draft")
    /\ lookup_field "featured_media" fields = Some (JNum 41)
    /\ lookup_field "categories" fields = None.
Proof.
  destruct (proj2 post_payload_is_a_draft forbidden_world
              "https://blog.example.org" "editor" "abcd efgh" "Hello"
              "<p>World</p>" (JNum 41) JUndefined
              ltac:(discriminate) ltac:(discriminate) ltac:(discriminate)
              ltac:(discriminate) ltac:(discriminate))
    as (fields & rest & result & Hserve & _ & _ & Hstatus & Hmedia & Hcats).
  exists fields, rest, result. repeat split; assumption.
Defined.
